(** * homebridge-vantage: the controller-communication layer

    A shallow embedding of [src/vantageInfusion.ts] (class [VantageInfusion]):
    the command channel (line decoding, dispatch, outbound writes,
    reconnection), the discovery channel and the backup parser.

    Conventions of the embedding.
    - A JavaScript string is a [string]: a sequence of code units below 256.
    - A JavaScript number is a [jsnum]: NaN, an infinity, or the exact decimal
      [m * 10^e]; rounding to binary64 and the sign of zero are not modelled.
    - An exception is the [Throw] outcome of a [result]; code that mutates the
      [areas] record and the [devices] array threads them as explicit state. *)

From Stdlib Require Import ZArith String Ascii List Bool Lia DecimalString.
From stdpp Require Import gmap strings.
Import ListNotations.
Local Open Scope string_scope.
Local Open Scope Z_scope.

(* ===================================================================== *)
(** * JavaScript values and built-ins used by the source                 *)
(* ===================================================================== *)

Module JS.

(** Outcome of a computation that may throw. *)
Inductive result (A : Type) : Type :=
| Ok (a : A)
| Throw.
Arguments Ok {A} a.
Arguments Throw {A}.

Definition rbind {A B} (r : result A) (k : A -> result B) : result B :=
  match r with
  | Ok a => k a
  | Throw => Throw
  end.

(** ** Strings *)

(** [StrWhiteSpaceChar] restricted to code units below 256; also the class
    [\s] of regular expressions. *)
Definition is_whitespace (c : ascii) : bool :=
  let n := nat_of_ascii c in
  (Nat.eqb n 9 || Nat.eqb n 10 || Nat.eqb n 11 || Nat.eqb n 12 || Nat.eqb n 13
   || Nat.eqb n 32 || Nat.eqb n 160)%bool.

Fixpoint trimStart (s : string) : string :=
  match s with
  | String c s' => if is_whitespace c then trimStart s' else s
  | EmptyString => EmptyString
  end.

Fixpoint trimEnd (s : string) : string :=
  match s with
  | String c s' =>
      match trimEnd s' with
      | EmptyString => if is_whitespace c then EmptyString else String c EmptyString
      | t => String c t
      end
  | EmptyString => EmptyString
  end.

(** [String.prototype.trim]. *)
Definition trim (s : string) : string := trimEnd (trimStart s).

(** [s.split(sep)] for a one-character separator: never the empty list. *)
Fixpoint split (sep : ascii) (s : string) : list string :=
  match s with
  | EmptyString => [EmptyString]
  | String c s' =>
      if Ascii.eqb c sep then EmptyString :: split sep s'
      else match split sep s' with
           | w :: ws => String c w :: ws
           | [] => [String c EmptyString]
           end
  end.

(** [s.includes(sub)]. *)
Fixpoint includes (s sub : string) : bool :=
  (String.prefix sub s
   || match s with
      | String _ s' => includes s' sub
      | EmptyString => false
      end)%bool.

(** [s.replace(pat, rep)] with a string pattern: the first occurrence only
    (no [$] in the replacements the source uses). *)
Fixpoint stripPrefix (p s : string) : option string :=
  match p, s with
  | EmptyString, _ => Some s
  | String a p', String b s' => if Ascii.eqb a b then stripPrefix p' s' else None
  | String _ _, EmptyString => None
  end.

Fixpoint replaceFirst (pat rep s : string) : string :=
  match stripPrefix pat s with
  | Some rest => rep +:+ rest
  | None =>
      match s with
      | String c s' => String c (replaceFirst pat rep s')
      | EmptyString => EmptyString
      end
  end.

(** [s.replace(/[\r\n]/g, '')]. *)
Fixpoint removeLineBreaks (s : string) : string :=
  match s with
  | String c s' =>
      if (Ascii.eqb c "010" || Ascii.eqb c "013")%bool then removeLineBreaks s'
      else String c (removeLineBreaks s')
  | EmptyString => EmptyString
  end.

(** ** Numbers *)

Inductive jsnum : Type :=
| NaN
| Infinity (negative : bool)
| Dec (m : Z) (e : Z).            (* the decimal m * 10^e *)

Definition int (z : Z) : jsnum := Dec z 0.

(** Numeric order; [None] when an operand is NaN. *)
Definition num_compare (a b : jsnum) : option comparison :=
  match a, b with
  | NaN, _ | _, NaN => None
  | Infinity n1, Infinity n2 =>
      Some (if n1 then (if n2 then Eq else Lt) else (if n2 then Gt else Eq))
  | Infinity n, Dec _ _ => Some (if n then Lt else Gt)
  | Dec _ _, Infinity n => Some (if n then Gt else Lt)
  | Dec m1 e1, Dec m2 e2 =>
      let e := Z.min e1 e2 in
      Some (Z.compare (m1 * 10 ^ (e1 - e)) (m2 * 10 ^ (e2 - e)))
  end.

Definition num_lt (a b : jsnum) : bool :=
  match num_compare a b with Some Lt => true | _ => false end.
Definition num_gt (a b : jsnum) : bool :=
  match num_compare a b with Some Gt => true | _ => false end.
(** [a === b] on numbers. *)
Definition num_eq (a b : jsnum) : bool :=
  match num_compare a b with Some Eq => true | _ => false end.
Definition isNaN (a : jsnum) : bool :=
  match a with NaN => true | _ => false end.

Definition digit_value (c : ascii) : option Z :=
  let n := nat_of_ascii c in
  if (Nat.leb 48 n && Nat.leb n 57)%bool then Some (Z.of_nat n - 48)
  else if (Nat.leb 97 n && Nat.leb n 102)%bool then Some (Z.of_nat n - 87)
  else if (Nat.leb 65 n && Nat.leb n 70)%bool then Some (Z.of_nat n - 55)
  else None.

(** The longest prefix of digits of radix [r], folded into its value:
    the value read, the number of digits, and the rest. *)
Fixpoint read_digits (r : Z) (acc : Z) (count : nat) (s : string) : Z * nat * string :=
  match s with
  | String c s' =>
      match digit_value c with
      | Some d => if d <? r then read_digits r (acc * r + d) (S count) s'
                  else (acc, count, s)
      | None => (acc, count, s)
      end
  | EmptyString => (acc, count, s)
  end.

Definition read_sign (s : string) : bool * string :=
  match s with
  | String "-" s' => (true, s')
  | String "+" s' => (false, s')
  | _ => (false, s)
  end.

Definition apply_sign (negative : bool) (z : Z) : Z := if negative then - z else z.

(** [parseInt(s)] with no radix argument. *)
Definition parseInt (s : string) : jsnum :=
  let '(negative, s1) := read_sign (trimStart s) in
  let '(radix, s2) :=
    match s1 with
    | String "0" (String "x" s') | String "0" (String "X" s') => (16, s')
    | _ => (10, s1)
    end in
  let '(v, count, _) := read_digits radix 0 0 s2 in
  match count with
  | O => NaN
  | S _ => int (apply_sign negative v)
  end.

(** The exponent part [e[+-]digits] of a decimal literal, when present. *)
Definition read_exponent (s : string) : Z :=
  match s with
  | String c s' =>
      if (Ascii.eqb c "e" || Ascii.eqb c "E")%bool then
        let '(negative, s1) := read_sign s' in
        let '(v, count, _) := read_digits 10 0 0 s1 in
        match count with
        | O => 0
        | S _ => apply_sign negative v
        end
      else 0
  | EmptyString => 0
  end.

(** [parseFloat(s)]: the longest prefix that is a [StrDecimalLiteral]. *)
Definition parseFloat (s : string) : jsnum :=
  let '(negative, s1) := read_sign (trimStart s) in
  if String.prefix "Infinity" s1 then Infinity negative
  else
    let '(ip, icount, s2) := read_digits 10 0 0 s1 in
    let '(m, fcount, s3) :=
      match s2 with
      | String "." s' => read_digits 10 ip 0 s'
      | _ => (ip, O, s2)
      end in
    match icount, fcount with
    | O, O => NaN
    | _, _ => Dec (apply_sign negative m) (read_exponent s3 - Z.of_nat fcount)
    end.

(** The value [undefined] where a string was expected: [ToString]. *)
Definition ToString_opt (a : option string) : string :=
  match a with
  | Some s => s
  | None => "undefined"
  end.

Definition string_of_nat_digits (n : N) : string :=
  NilZero.string_of_uint (N.to_uint n).

Fixpoint zeros (n : nat) : string :=
  match n with
  | O => EmptyString
  | S n' => String "0" (zeros n')
  end.

Fixpoint trailing_zeros_fuel (fuel : nat) (m e : Z) : Z * Z :=
  match fuel with
  | O => (m, e)
  | S f => if (m mod 10 =? 0) then trailing_zeros_fuel f (m / 10) (e + 1) else (m, e)
  end.

(** [Number::toString] (radix 10) of the decimal [m * 10^e]. *)
Definition number_to_string (x : jsnum) : string :=
  match x with
  | NaN => "NaN"
  | Infinity negative => if negative then "-Infinity" else "Infinity"
  | Dec m e =>
      if m =? 0 then "0"
      else
        let '(m', e') := trailing_zeros_fuel (Z.to_nat (Z.log2 (Z.abs m))) (Z.abs m) e in
        let digits := string_of_nat_digits (Z.to_N m') in
        let k := Z.of_nat (String.length digits) in
        let n := k + e' in
        let sign := if m <? 0 then "-" else "" in
        let body :=
          if (k <=? n) && (n <=? 21) then digits +:+ zeros (Z.to_nat (n - k))
          else if (0 <? n) && (n <=? 21) then
            substring 0 (Z.to_nat n) digits +:+ "." +:+
            substring (Z.to_nat n) (Z.to_nat (k - n)) digits
          else if (-6 <? n) && (n <=? 0) then
            "0." +:+ zeros (Z.to_nat (- n)) +:+ digits
          else
            let ex := (if n - 1 <? 0 then "-" else "+") +:+
                      string_of_nat_digits (Z.to_N (Z.abs (n - 1))) in
            if k =? 1 then digits +:+ "e" +:+ ex
            else substring 0 1 digits +:+ "." +:+
                 substring 1 (Z.to_nat (k - 1)) digits +:+ "e" +:+ ex
        in sign +:+ body
  end.

(** ** Values: what the XML parser returns and what the code stores *)

#[local] Unset Elimination Schemes.
Inductive jsval : Type :=
| JUndefined
| JNull
| JBool (b : bool)
| JNum (n : jsnum)
| JStr (s : string)
| JArr (items : list jsval)
| JObj (fields : list (string * jsval)).   (* own properties, keys unique *)
#[local] Set Elimination Schemes.

(** [ToBoolean]. *)
Definition truthy (v : jsval) : bool :=
  match v with
  | JUndefined | JNull => false
  | JBool b => b
  | JNum NaN => false
  | JNum (Infinity _) => true
  | JNum (Dec m _) => negb (m =? 0)
  | JStr s => negb (String.eqb s "")
  | JArr _ | JObj _ => true
  end.

(** [a || b]. *)
Definition js_or (a b : jsval) : jsval := if truthy a then a else b.

Definition nullish (v : jsval) : bool :=
  match v with
  | JUndefined | JNull => true
  | _ => false
  end.

Fixpoint assoc (k : string) (fields : list (string * jsval)) : option jsval :=
  match fields with
  | [] => None
  | (k', v) :: rest => if String.eqb k k' then Some v else assoc k rest
  end.

(** [v.k] on a receiver that is neither [undefined] nor [null], for the
    property names the source reads (none of them is a member of a built-in
    prototype): an own property of an object, [undefined] otherwise. *)
Definition field (v : jsval) (k : string) : jsval :=
  match v with
  | JObj fields => default JUndefined (assoc k fields)
  | _ => JUndefined
  end.

(** [v.k] on any receiver: a TypeError on [undefined] and [null]. *)
Definition getProp (v : jsval) (k : string) : result jsval :=
  if nullish v then Throw else Ok (field v k).

(** [v?.k]. *)
Definition optField (v : jsval) (k : string) : jsval :=
  if nullish v then JUndefined else field v k.

(** [v === 'text']. *)
Definition isString (v : jsval) (text : string) : bool :=
  match v with
  | JStr s => String.eqb s text
  | _ => false
  end.

(** [ToString(v)], which is also [v.toString()] on a truthy [v] and the
    property key [v] stands for in [record[v]].  An object with an own
    property [toString] (a parsed value, so not a function) throws. *)
Fixpoint ToString (v : jsval) : result string :=
  match v with
  | JUndefined => Ok "undefined"
  | JNull => Ok "null"
  | JBool b => Ok (if b then "true" else "false")
  | JNum n => Ok (number_to_string n)
  | JStr s => Ok s
  | JArr items =>
      (fix join (l : list jsval) : result string :=
         match l with
         | [] => Ok ""
         | x :: rest =>
             rbind (if nullish x then Ok "" else ToString x) (fun sx =>
             match rest with
             | [] => Ok sx
             | _ :: _ => rbind (join rest) (fun sr => Ok (sx +:+ "," +:+ sr))
             end)
         end) items
  | JObj fields =>
      match assoc "toString" fields with
      | Some _ => Throw
      | None => Ok "[object Object]"
      end
  end.

End JS.

Import JS.


(* ===================================================================== *)
(** * Regular expressions of the source                                  *)
(* ===================================================================== *)

Module Regex.

(** The patterns of the source are sequences of literal text and of
    repetitions of a one-character class, some of them capturing. *)
Inductive item : Type :=
| Lit (text : string)
| Rep (cls : ascii -> bool) (atLeastOne greedy capture : bool).

Definition pattern : Type := list item.

(** A match: the text matched, the captures in order, the text after. *)
Definition matched : Type := (string * list string * string)%type.

Definition snoc (s : string) (c : ascii) : string := s +:+ String c "".

(** A repetition of the class [cls] from [s0] on, [taken] being the run
    read so far and [next] the match of the rest of the pattern: a greedy
    repetition tries the longest run first, a lazy one the shortest. *)
Fixpoint runRep (cls : ascii -> bool) (atLeastOne greedy capture : bool)
    (next : string -> option matched) (taken s0 : string) {struct s0} : option matched :=
  let stop :=
    if (atLeastOne && String.eqb taken "")%bool then None
    else match next s0 with
         | Some (m, caps, rest) =>
             Some (taken +:+ m, if capture then taken :: caps else caps, rest)
         | None => None
         end in
  match s0 with
  | String c s1 =>
      if cls c then
        if greedy then
          match runRep cls atLeastOne greedy capture next (snoc taken c) s1 with
          | Some r => Some r
          | None => stop
          end
        else
          match stop with
          | Some r => Some r
          | None => runRep cls atLeastOne greedy capture next (snoc taken c) s1
          end
      else stop
  | EmptyString => stop
  end.

(** Backtracking match of [p] at the start of [s]. *)
Fixpoint matchHere (p : pattern) (s : string) : option matched :=
  match p with
  | [] => Some ("", [], s)
  | Lit text :: p' =>
      match stripPrefix text s with
      | Some s' =>
          match matchHere p' s' with
          | Some (m, caps, rest) => Some (text +:+ m, caps, rest)
          | None => None
          end
      | None => None
      end
  | Rep cls atLeastOne greedy capture :: p' =>
      runRep cls atLeastOne greedy capture (matchHere p') "" s
  end.

(** [re.exec(s)] of a pattern without the [g] flag, and one step of a
    global one: the leftmost match. *)
Fixpoint search (p : pattern) (s : string) : option matched :=
  match matchHere p s with
  | Some r => Some r
  | None =>
      match s with
      | String _ s' => search p s'
      | EmptyString => None
      end
  end.

(** The [while ((m = re.exec(s)) !== null)] loop of a global pattern: each
    search starts where the last match ended.  No pattern of the source
    matches the empty string, so a match consumes text and [fuel] above the
    length of [s] is never used up. *)
Fixpoint execLoop (fuel : nat) (p : pattern) (s : string) : list (string * list string) :=
  match fuel with
  | O => []
  | S fuel' =>
      match search p s with
      | Some (m, caps, rest) => (m, caps) :: execLoop fuel' p rest
      | None => []
      end
  end.

Definition execAll (p : pattern) (s : string) : list (string * list string) :=
  execLoop (S (String.length s)) p s.

(** Character classes. *)
Definition dquote : ascii := "034"%char.
Definition notChar (x : ascii) (c : ascii) : bool := negb (Ascii.eqb c x).
(** [.] without the [s] flag: anything but a line terminator. *)
Definition dot (c : ascii) : bool :=
  negb (Ascii.eqb c "010" || Ascii.eqb c "013")%bool.

(** [<Tag>([^<]+)</Tag>]. *)
Definition element (tag : string) : pattern :=
  [Lit ("<" +:+ tag +:+ ">"); Rep (notChar "<") true true true;
   Lit ("</" +:+ tag +:+ ">")].

(** [<Tag>(.*?)</Tag>]. *)
Definition section (tag : string) : pattern :=
  [Lit ("<" +:+ tag +:+ ">"); Rep dot false false true; Lit ("</" +:+ tag +:+ ">")].

(** The attribute pattern: VID= and a quoted run of one or more characters
    that are not the quote, captured. *)
Definition vidAttribute : pattern :=
  [Lit ("VID=" +:+ String dquote ""); Rep (notChar dquote) true true true;
   Lit (String dquote "")].

(** The first capture of the leftmost match. *)
Definition firstCapture (p : pattern) (s : string) : option string :=
  match search p s with
  | Some (_, cap :: _, _) => Some cap
  | _ => None
  end.

(** A pattern that opens with a literal of at least one character. *)
Definition opensWithText (p : pattern) : Prop :=
  exists c text p', p = Lit (String c text) :: p'.

End Regex.

(* ===================================================================== *)
(** * Command channel (port 3001)                                        *)
(* ===================================================================== *)

Module Command.

Definition LF : ascii := "010"%char.
Definition SP : ascii := " "%char.

(** The events [this.emit] raises from the command channel, with the
    arguments they carry; a missing [args[i]] is [None] ([undefined]). *)
Inductive Event : Type :=
| blindStatusChange (vid : option string) (position : jsnum)
| loadStatusChange (vid : option string) (level : jsnum)
| thermostatDidChange (value : option string)
| thermostatIndoorTemperatureChange (vid : option string) (temperature : jsnum)
| thermostatIndoorModeChange (vid : option string) (modeVal : Z) (setpoint : jsnum).

Definition verb_in (command : string) (verbs : list string) : bool :=
  existsb (String.eqb command) verbs.

Definition thermostat_mode_verbs : list string :=
  ["S:THERMOP"; "R:GETTHERMOP"; "R:THERMTEMP"].

(** The [modeVal] chain of [processCommandResponse]. *)
Definition decodeMode (modeToken : string) : Z :=
  if includes modeToken "OFF" then 0
  else if includes modeToken "HEAT" then 1
  else if includes modeToken "COOL" then 2
  else 3.

(** [processCommandResponse(parts)]: the events emitted, or [Throw] for the
    TypeError of [args[1].includes] on a missing [args[1]]. *)
Definition processCommandResponse (parts : list string) : result (list Event) :=
  match parts with
  | [] => Ok []
  | command :: args =>
      if verb_in command ["S:BLIND"; "R:GETBLIND"] then
        let vid := args !! 0%nat in
        let position := parseInt (ToString_opt (args !! 1%nat)) in
        Ok [blindStatusChange vid position]
      else if verb_in command ["S:LOAD"; "R:GETLOAD"] then
        Ok [loadStatusChange (args !! 0%nat) (parseInt (ToString_opt (args !! 1%nat)))]
      else if verb_in command ["S:TEMP"] then
        Ok [thermostatDidChange (args !! 1%nat)]
      else if verb_in command ["R:INVOKE"] then
        match args !! 2%nat with
        | Some methodName =>
            if includes methodName "Thermostat.GetIndoorTemperature" then
              Ok [thermostatIndoorTemperatureChange (args !! 0%nat)
                    (parseFloat (ToString_opt (args !! 1%nat)))]
            else Ok []
        | None => Ok []
        end
      else if verb_in command thermostat_mode_verbs then
        match args !! 1%nat with
        | Some modeToken =>
            Ok [thermostatIndoorModeChange (args !! 0%nat) (decodeMode modeToken)
                  (if String.eqb command "R:THERMTEMP"
                   then parseFloat (ToString_opt (args !! 2%nat))
                   else int (-1))]
        | None => Throw
        end
      else Ok []
  end.

(** The tokenizations [handleCommandData] hands to the dispatcher:
    [data.toString().split('\n')], each line split on a space. *)
Definition decodeLines (data : string) : list (list string) :=
  map (split SP) (split LF data).

(** The [for] loop of [handleCommandData]: the events emitted, and whether
    the loop ran to its end or was left by an exception of the dispatcher. *)
Fixpoint dispatchLines (lines : list (list string)) : list Event * result unit :=
  match lines with
  | [] => ([], Ok tt)
  | parts :: rest =>
      if Nat.eqb (length parts) 0 then dispatchLines rest
      else
        match processCommandResponse parts with
        | Ok evs => let '(evs', r) := dispatchLines rest in ((evs ++ evs')%list, r)
        | Throw => ([], Throw)
        end
  end.

Definition handleCommandData (data : string) : list Event * result unit :=
  dispatchLines (decodeLines data).

(** One ['data'] event per chunk: every chunk is decoded on its own, no
    field of the class carries text from one call to the next. *)
Definition feedChunks (chunks : list string) : list (list string) :=
  concat (map decodeLines chunks).

(** ** Vocabulary of the statements about line decoding and dispatch *)

Definition nl : string := String LF "".

Definition joinChunks (chunks : list string) : string :=
  fold_right String.append "" chunks.

(** A chunk boundary that falls right after a newline. *)
Definition endsWithNewline (chunk : string) : Prop :=
  exists body, chunk = body +:+ nl.

(** The tokenization of an empty line: the single empty token. *)
Definition blankLine (parts : list string) : bool :=
  match parts with
  | [EmptyString] => true
  | _ => false
  end.

Definition nonBlank (lines : list (list string)) : list (list string) :=
  List.filter (fun parts => negb (blankLine parts)) lines.




(** ** Outbound writes: the strings given to [commandSocket.write] *)

Definition getLoadStatus (vid : string) : list string :=
  ["GETLOAD " +:+ vid +:+ String LF ""].

Definition setLoadLevel (vid : string) (level : jsnum) (time : jsnum) : list string :=
  ["INVOKE " +:+ vid +:+ " Load.Ramp 6 " +:+ number_to_string time +:+ " "
     +:+ number_to_string level +:+ String LF ""].

Definition setBlindPosition (vid : string) (position : jsnum) : list string :=
  ["BLIND " +:+ vid +:+ " POS " +:+ number_to_string position +:+ String LF ""].

Definition getBlindPosition (vid : string) : list string :=
  ["GETBLIND " +:+ vid +:+ String LF ""].

Definition getThermostatState (vid : string) : list string :=
  ["INVOKE " +:+ vid +:+ " Thermostat.GetIndoorTemperature" +:+ String LF "";
   "GETTHERMOP " +:+ vid +:+ String LF "";
   "GETTHERMTEMP " +:+ vid +:+ " HEAT" +:+ String LF "";
   "GETTHERMTEMP " +:+ vid +:+ " COOL" +:+ String LF ""].

Definition modeMap (key : string) : option string :=
  if String.eqb key "0" then Some "OFF"
  else if String.eqb key "1" then Some "HEAT"
  else if String.eqb key "2" then Some "COOL"
  else if String.eqb key "3" then Some "AUTO"
  else None.

Definition setThermostatMode (vid : string) (mode : jsnum) : list string :=
  ["THERMOP " +:+ vid +:+ " "
     +:+ default "OFF" (modeMap (number_to_string mode)) +:+ String LF ""].

Definition thermtemp (vid setpoint : string) (value : jsnum) : string :=
  "THERMTEMP " +:+ vid +:+ " " +:+ setpoint +:+ " " +:+ number_to_string value
    +:+ String LF "".

Definition setThermostatTemperature
    (vid : string) (value mode heating cooling : jsnum) : list string :=
  if num_eq mode (int 1) then [thermtemp vid "HEAT" value]
  else if num_eq mode (int 2) then [thermtemp vid "COOL" value]
  else if num_eq mode (int 3) then
    if num_gt value cooling then [thermtemp vid "COOL" value]
    else if num_lt value heating then [thermtemp vid "HEAT" value]
    else []
  else [].

(** ** Reconnection: the ['close'] listeners of the command socket *)

(** [MainClose] is the listener [setupCommandSocket] registers;
    [ReconnectClose] is the one each call of [setupReconnection] adds. *)
Inductive CloseListener : Type :=
| MainClose
| ReconnectClose.

Record SocketState : Type := {
  closeListeners : list CloseListener;
  pendingTimers : list Z            (* delays, in ms, of the timers set *)
}.

(** After the constructor: one listener, no timer. *)
Definition initialSocket : SocketState :=
  {| closeListeners := [MainClose]; pendingTimers := [] |}.

Definition setupReconnection (s : SocketState) : SocketState :=
  {| closeListeners := (closeListeners s ++ [ReconnectClose])%list;
     pendingTimers := pendingTimers s |}.

Definition runCloseListener (s : SocketState) (l : CloseListener) : SocketState :=
  match l with
  | MainClose => setupReconnection s
  | ReconnectClose =>
      {| closeListeners := closeListeners s;
         pendingTimers := (pendingTimers s ++ [5000])%list |}
  end.

(** [emit('close')]: the listeners registered when the event is emitted run
    in order; one added meanwhile waits for the next event. *)
Definition emitClose (s : SocketState) : SocketState :=
  fold_left runCloseListener (closeListeners s) s.

Fixpoint closeTimes (n : nat) (s : SocketState) : SocketState :=
  match n with
  | O => s
  | S n' => emitClose (closeTimes n' s)
  end.

End Command.

(* ===================================================================== *)
(** * Backup parser                                                      *)
(* ===================================================================== *)

Module Backup.
Import Regex.

Record Config : Type := {
  ipAddress : string;
  username : string;
  password : string;
  omit : string;
  range : string
}.

(** A device record.  [VID] and [ObjectType] are always strings; the other
    fields hold what the parser returned (a string or a number) in the
    structured pass and a string in the direct pass. *)
Record VantageDevice : Type := {
  VID : string;
  Name : jsval;
  ObjectType : string;
  LoadType : jsval;
  DeviceCategory : jsval;
  Area : jsval
}.

(** ** The [areas] record *)

(** [areas] is a plain object used as a map: its own properties, and the
    prototype an assignment to the key [__proto__] gives it (none: it is
    still [Object.prototype]). *)
Record AreasRecord : Type := {
  own : gmap string jsval;
  protoSlot : option jsval
}.

Definition emptyAreas : AreasRecord := {| own := ∅; protoSlot := None |}.

Definition object_prototype_members : list string :=
  ["constructor"; "hasOwnProperty"; "isPrototypeOf"; "propertyIsEnumerable";
   "toLocaleString"; "toString"; "valueOf"; "__defineGetter__";
   "__defineSetter__"; "__lookupGetter__"; "__lookupSetter__"].

(** A property inherited from [Object.prototype]: a function, that is a
    truthy value without the properties the source reads. *)
Definition inheritedFromObject (k : string) : jsval :=
  if existsb (String.eqb k) object_prototype_members then JObj [] else JUndefined.

(** [areas[k]]. *)
Definition areasGet (a : AreasRecord) (k : string) : jsval :=
  match own a !! k with
  | Some v => v
  | None =>
      if String.eqb k "__proto__" then default (JObj []) (protoSlot a)
      else
        match protoSlot a with
        | Some (JObj fields) => default (inheritedFromObject k) (assoc k fields)
        | _ => inheritedFromObject k
        end
  end.

(** [areas[k] = v], for an object [v]. *)
Definition areasSet (a : AreasRecord) (k : string) (v : jsval) : AreasRecord :=
  if String.eqb k "__proto__" then {| own := own a; protoSlot := Some v |}
  else {| own := <[k := v]> (own a); protoSlot := protoSlot a |}.

(** [Object.keys(areas).length === 0]. *)
Definition areasIsEmpty (a : AreasRecord) : bool := Nat.eqb (size (own a)) 0.

(** The literal [{VID: vid, Name: name}]. *)
Definition areaObject (vid name : jsval) : jsval :=
  JObj [("VID", vid); ("Name", name)].

Definition defaultArea : jsval := areaObject (JStr "default_area") (JStr "Main Area").

(** [areas[key]?.Name || 'Main Area']: the area field of a device in both
    passes. *)
Definition resolveArea (a : AreasRecord) (key : string) : jsval :=
  js_or (optField (areasGet a key) "Name") (JStr "Main Area").

(** ** Filters *)

Definition omitList (cfg : Config) : list string :=
  if String.eqb (omit cfg) "" then []
  else map trim (split "," (omit cfg)).

Definition rangeList (cfg : Config) : list jsnum :=
  if String.eqb (range cfg) "" then [int 0; int 999999999]
  else map (fun id => parseInt (trim id)) (split "," (range cfg)).

(** [rangeList[i]]: a missing entry is [undefined], which compares like NaN. *)
Definition rangeBound (l : list jsnum) (i : nat) : jsnum := default NaN (l !! i).

(** The test both passes apply to the VID of a device:
    [omitList.includes(vid) ||
     (!isNaN(numVid) && (numVid < rangeList[0] || numVid > rangeList[1]))]. *)
Definition vidExcluded (omitted : list string) (bounds : list jsnum) (vid : string) : bool :=
  let numVid := parseInt vid in
  (existsb (String.eqb vid) omitted
   || (negb (isNaN numVid)
       && (num_lt numVid (rangeBound bounds 0) || num_gt numVid (rangeBound bounds 1))))%bool.

(** ** Direct extraction *)

Definition areaRegex : pattern :=
  [Lit "<Object>"; Rep is_whitespace false true false;
   Lit "<Area"; Rep is_whitespace true true false;
   Lit ("VID=" +:+ String dquote ""); Rep (notChar dquote) true true true;
   Lit (String dquote ""); Rep (notChar ">") false true false; Lit ">";
   Rep dot false false false;
   Lit "<Name>"; Rep (notChar "<") true true true; Lit "</Name>";
   Rep dot false false false;
   Lit "</Area>"; Rep is_whitespace false true false; Lit "</Object>"].

Definition addAreaMatch (a : AreasRecord) (m : string * list string) : AreasRecord :=
  match snd m with
  | [vid; name] =>
      if (negb (String.eqb vid "") && negb (truthy (areasGet a vid)))%bool
      then areasSet a vid (areaObject (JStr vid) (JStr name))
      else a
  | _ => a
  end.

Definition extractAreasDirectly (fileContent : string) (a : AreasRecord) : AreasRecord :=
  let a' := fold_left addAreaMatch (execAll areaRegex fileContent) a in
  if areasIsEmpty a' then areasSet a' "default_area" defaultArea else a'.

Definition validTypes : list string :=
  ["Load"; "Thermostat"; "Blind"; "RelayBlind"; "QubeBlind"].

Definition deviceRegex (type : string) : pattern :=
  [Lit ("<" +:+ type); Rep (notChar ">") false true true; Lit ">";
   Rep dot false false false;
   Lit "<Name>"; Rep (notChar "<") true true true; Lit "</Name>";
   Rep dot false false false;
   Lit ("</" +:+ type +:+ ">")].

(** The VID of a matched span: the attribute, else the child element
    [VID], else the child element [Number]. *)
Definition directVid (attributes whole : string) : option string :=
  match firstCapture vidAttribute attributes with
  | Some vid => Some vid
  | None =>
      match firstCapture (element "VID") whole with
      | Some vid => Some vid
      | None => firstCapture (element "Number") whole
      end
  end.

(** The body of the [while] loop of [extractDevicesDirectly] for one match:
    the device pushed, or [None] where the loop [continue]s. *)
Definition deviceOfMatch (cfg : Config) (a : AreasRecord) (type : string)
    (m : string * list string) : option VantageDevice :=
  let whole := fst m in
  let attributes := default "" (snd m !! 0%nat) in
  let name := default "" (snd m !! 1%nat) in
  match directVid attributes whole with
  | None => None
  | Some vid =>
      if String.eqb name "" then None
      else if vidExcluded (omitList cfg) (rangeList cfg) vid then None
      else
        let areaId := default "" (firstCapture (element "Area") whole) in
        let loadType := default "" (firstCapture (element "LoadType") whole) in
        let deviceCategory := default "" (firstCapture (element "DeviceCategory") whole) in
        Some {| VID := vid;
                Name := JStr name;
                ObjectType := type;
                LoadType := JStr loadType;
                DeviceCategory := JStr deviceCategory;
                Area := resolveArea a areaId |}
  end.

Definition directDevices (cfg : Config) (a : AreasRecord) (fileContent : string)
    : list VantageDevice :=
  flat_map (fun type =>
              omap (deviceOfMatch cfg a type) (execAll (deviceRegex type) fileContent))
           validTypes.

(** ** The state the parser mutates, and code that may throw over it *)

Record Store : Type := {
  areas : AreasRecord;
  devices : list VantageDevice
}.

(** [extractDevicesDirectly]: nothing in its [try] block can throw. *)
Definition extractDevicesDirectly (cfg : Config) (fileContent : string) (st : Store) : Store :=
  let a := if areasIsEmpty (areas st) then extractAreasDirectly fileContent (areas st)
           else areas st in
  {| areas := a; devices := (devices st ++ directDevices cfg a fileContent)%list |}.

Definition M (A : Type) : Type := Store -> result A * Store.

Definition ret {A} (a : A) : M A := fun st => (Ok a, st).
Definition lift {A} (r : result A) : M A := fun st => (r, st).
Definition bind {A B} (m : M A) (k : A -> M B) : M B :=
  fun st =>
    match m st with
    | (Ok a, st') => k a st'
    | (Throw, st') => (Throw, st')
    end.
Definition tryCatch {A} (m : M A) (handler : M A) : M A :=
  fun st =>
    match m st with
    | (Ok a, st') => (Ok a, st')
    | (Throw, st') => handler st'
    end.

Notation "x <- m ;; k" := (bind m (fun x => k))
  (at level 100, m at next level, k at level 200, right associativity).
Notation "m ;;; k" := (bind m (fun _ => k))
  (at level 100, k at level 200, right associativity).

Definition readAreas : M AreasRecord := fun st => (Ok (areas st), st).
Definition modifyAreas (f : AreasRecord -> AreasRecord) : M unit :=
  fun st => (Ok tt, {| areas := f (areas st); devices := devices st |}).
Definition writeArea (key : string) (v : jsval) : M unit :=
  modifyAreas (fun a => areasSet a key v).
Definition push (d : VantageDevice) : M unit :=
  fun st => (Ok tt, {| areas := areas st; devices := (devices st ++ [d])%list |}).
Definition modifyStore (f : Store -> Store) : M unit := fun st => (Ok tt, f st).

(** [xs.forEach(body)]: an exception of the body leaves the loop. *)
Fixpoint forEach (xs : list jsval) (body : jsval -> M unit) : M unit :=
  match xs with
  | [] => ret tt
  | x :: rest => body x ;;; forEach rest body
  end.

(** ** Structured pass *)

Definition areaNameOf (node : jsval) : jsval :=
  js_or (js_or (field node "Name") (field node "DName")) (JStr "Unknown").

(** First pass: [obj.Area && obj.Area.ObjectType === 'Area']. *)
Definition explicitAreaBody (obj : jsval) : M unit :=
  area <- lift (getProp obj "Area") ;;
  if (truthy area && isString (field area "ObjectType") "Area")%bool then
    let vid := js_or (js_or (field area "_VID") (field area "VID")) (JStr "") in
    if truthy vid then
      key <- lift (ToString vid) ;;
      writeArea key (areaObject vid (areaNameOf area))
    else ret tt
  else ret tt.

(** Standalone areas:
    [obj.Area && !obj.Area.ObjectType && obj.Area._VID]. *)
Definition standaloneAreaBody (obj : jsval) : M unit :=
  area <- lift (getProp obj "Area") ;;
  if (truthy area && negb (truthy (field area "ObjectType"))
      && truthy (field area "_VID"))%bool then
    let vid := js_or (field area "_VID") (JStr "") in
    if truthy vid then
      key <- lift (ToString vid) ;;
      a <- readAreas ;;
      if truthy (areasGet a key) then ret tt
      else writeArea key (areaObject vid (areaNameOf area))
    else ret tt
  else ret tt.

(** The alternative approach, run when no area was found. *)
Definition altAreaBody (obj : jsval) : M unit :=
  objectType <- lift (getProp obj "ObjectType") ;;
  let area := field obj "Area" in
  if (isString objectType "Area"
      || (truthy area && isString (field area "ObjectType") "Area"))%bool then
    let target := if isString objectType "Area" then obj else area in
    let vid := js_or (js_or (field target "_VID") (field target "VID")) (JStr "") in
    if truthy vid then
      key <- lift (ToString vid) ;;
      writeArea key (areaObject vid (areaNameOf target))
    else ret tt
  else ret tt.

(** The [for (const type of validTypes)] search: the first type tag the
    object has a truthy property for, with that property. *)
Fixpoint findDeviceData (types : list string) (obj : jsval) : option (string * jsval) :=
  match types with
  | [] => None
  | type :: rest =>
      if truthy (field obj type) then Some (type, field obj type)
      else findDeviceData rest obj
  end.

(** The VID: the attribute first, then the element. *)
Definition deviceVid (deviceData : jsval) : result string :=
  if truthy (field deviceData "_VID") then ToString (field deviceData "_VID")
  else if truthy (field deviceData "VID") then ToString (field deviceData "VID")
  else Ok "".

(** The [areaId] of a device of the structured pass: the text of an [Area]
    that is a string or a number, else its [_VID], else its [VID]. *)
Definition deviceAreaId (deviceData : jsval) : jsval :=
  let area := field deviceData "Area" in
  if truthy area then
    match area with
    | JStr s => JStr s
    | JNum n => JStr (number_to_string n)
    | _ =>
        if truthy (field area "_VID") then field area "_VID"
        else if truthy (field area "VID") then field area "VID"
        else JStr ""
    end
  else JStr "".

(** Second pass, one object. *)
Definition deviceBody (cfg : Config) (obj : jsval) : M unit :=
  lift (getProp obj "Load") ;;;
  match findDeviceData validTypes obj with
  | None => ret tt
  | Some (deviceType, deviceData) =>
      vid <- lift (deviceVid deviceData) ;;
      if String.eqb vid "" then ret tt
      else if vidExcluded (omitList cfg) (rangeList cfg) vid then ret tt
      else
        key <- lift (ToString (deviceAreaId deviceData)) ;;
        a <- readAreas ;;
        push {| VID := vid;
                Name := js_or (js_or (field deviceData "Name") (field deviceData "DName"))
                              (JStr ("Unknown " +:+ deviceType));
                ObjectType := deviceType;
                LoadType := js_or (field deviceData "LoadType") (JStr "");
                DeviceCategory := js_or (field deviceData "DeviceCategory") (JStr "");
                Area := resolveArea a key |}
  end.

(** The [Area] field of the record [processDevice] returns for a device
    that is an object; [processDevice] is a private method that no method
    of the class calls.  A key that cannot be converted to a string throws
    inside its [try] block, whose [catch] answers with the default name. *)
Definition processDeviceArea (device : jsval) (a : AreasRecord) : jsval :=
  let areaId := field device "Area" in
  if truthy areaId then
    match ToString areaId with
    | Ok key =>
        if truthy (areasGet a key) then field (areasGet a key) "Name"
        else JStr ("Area " +:+ key)
    | Throw => JStr "Main Area"
    end
  else JStr "Main Area".

Section Parser.

(** [new XMLParser({...}).parse]: the parser of the fast-xml-parser package,
    with the options both call sites give it. *)
Variable xml_parse : string -> result jsval.
Variable cfg : Config.

Definition whenNoAreas (m : M unit) : M unit :=
  a <- readAreas ;;
  if areasIsEmpty a then m else ret tt.

(** From [parser.parse(objectsXml)] returning [parsed] to the end of the
    [try] block of [processBackupFile]. *)
Definition structuredPass (fileContent : string) (parsed : jsval) : M unit :=
  objectsNode <- lift (getProp parsed "Objects") ;;
  if (negb (truthy objectsNode) || negb (truthy (field objectsNode "Object")))%bool then
    modifyStore (extractDevicesDirectly cfg fileContent)
  else
    let objects := match field objectsNode "Object" with
                   | JArr items => items
                   | one => [one]
                   end in
    forEach objects explicitAreaBody ;;;
    forEach objects standaloneAreaBody ;;;
    whenNoAreas (forEach objects altAreaBody) ;;;
    whenNoAreas (writeArea "default_area" defaultArea) ;;;
    forEach objects (deviceBody cfg).

(** The text handed to the parser: the [Objects] section, else the
    [Project] section wrapped as one. *)
Definition objectsSection (fileContent : string) : option string :=
  match firstCapture (section "Objects") fileContent with
  | Some inner => Some ("<Objects>" +:+ inner +:+ "</Objects>")
  | None =>
      match firstCapture (section "Project") fileContent with
      | Some inner => Some ("<Objects>" +:+ inner +:+ "</Objects>")
      | None => None
      end
  end.

Definition processBackupFile (rawContent : string) : M unit :=
  let fileContent := removeLineBreaks rawContent in
  tryCatch
    (modifyAreas (extractAreasDirectly fileContent) ;;;
     match objectsSection fileContent with
     | None => ret tt
     | Some objectsXml =>
         match xml_parse objectsXml with
         | Throw => modifyStore (extractDevicesDirectly cfg fileContent)
         | Ok parsed => structuredPass fileContent parsed
         end
     end)
    (modifyStore (extractDevicesDirectly cfg fileContent)).

End Parser.

(** ** Vocabulary of the statements about the filters *)


Definition admitted (cfg : Config) (d : VantageDevice) : Prop :=
  vidExcluded (omitList cfg) (rangeList cfg) (VID d) = false.

Definition devicesAdmitted (cfg : Config) (st : Store) : Prop :=
  Forall (admitted cfg) (devices st).

(** [m] keeps a property of the store, whether it returns or throws. *)
Definition preserves (P : Store -> Prop) {A} (m : M A) : Prop :=
  forall st, P st -> P (snd (m st)).

Definition withRange (cfg : Config) (r : string) : Config :=
  {| ipAddress := ipAddress cfg; username := username cfg; password := password cfg;
     omit := omit cfg; range := r |}.

(** ** Vocabulary of the statements about the parser cascade *)

(** The store once the area regex has run over the text. *)
Definition afterAreas (fileContent : string) (st : Store) : Store :=
  {| areas := extractAreasDirectly fileContent (areas st); devices := devices st |}.

(** The parsed tree has no object collection: it has no truthy [Objects],
    or that has no truthy [Object]. *)
Definition noObjectCollection (parsed : jsval) : Prop :=
  match getProp parsed "Objects" with
  | Ok objectsNode =>
      truthy objectsNode = false \/ truthy (field objectsNode "Object") = false
  | Throw => True
  end.

End Backup.

(* ===================================================================== *)
(** * Discovery channel (port 2001)                                      *)
(* ===================================================================== *)

Module Discovery.
Import Backup.

(** What the callbacks of one [discover()] call share: the local variables
    [buffer], [areas], [devices] and [connectionTimeout], the writes on
    [configSocket], and the [discoveryComplete] events emitted so far, each
    with the device list it carries. *)
Record State : Type := {
  buffer : string;
  store : Store;
  timeoutArmed : bool;
  written : list string;
  ended : bool;
  destroyed : bool;
  discoveryComplete : list (list VantageDevice)
}.

Definition initial : State :=
  {| buffer := "";
     store := {| areas := emptyAreas; devices := [] |};
     timeoutArmed := true;
     written := [];
     ended := false;
     destroyed := false;
     discoveryComplete := [] |}.

Definition backupRequest : string :=
  "<IBackup><GetFile><call>Backup\Project.dc</call></GetFile></IBackup>"
    +:+ String Command.LF "".

Definition loginRequest (cfg : Config) : string :=
  "<ILogin><Login><call><User>" +:+ username cfg +:+ "</User><Password>"
    +:+ password cfg +:+ "</Password></call></Login></ILogin>" +:+ String Command.LF "".

Definition clearTimeout (s : State) : State :=
  {| buffer := buffer s; store := store s; timeoutArmed := false;
     written := written s; ended := ended s; destroyed := destroyed s;
     discoveryComplete := discoveryComplete s |}.

Definition emitDiscoveryComplete (payload : list VantageDevice) (s : State) : State :=
  {| buffer := buffer s; store := store s; timeoutArmed := timeoutArmed s;
     written := written s; ended := ended s; destroyed := destroyed s;
     discoveryComplete := (discoveryComplete s ++ [payload])%list |}.

Definition write (text : string) (s : State) : State :=
  {| buffer := buffer s; store := store s; timeoutArmed := timeoutArmed s;
     written := (written s ++ [text])%list; ended := ended s; destroyed := destroyed s;
     discoveryComplete := discoveryComplete s |}.

Definition setBuffer (text : string) (s : State) : State :=
  {| buffer := text; store := store s; timeoutArmed := timeoutArmed s;
     written := written s; ended := ended s; destroyed := destroyed s;
     discoveryComplete := discoveryComplete s |}.

Definition setStore (st : Store) (s : State) : State :=
  {| buffer := buffer s; store := st; timeoutArmed := timeoutArmed s;
     written := written s; ended := ended s; destroyed := destroyed s;
     discoveryComplete := discoveryComplete s |}.

Definition endSocket (s : State) : State :=
  {| buffer := buffer s; store := store s; timeoutArmed := timeoutArmed s;
     written := written s; ended := true; destroyed := destroyed s;
     discoveryComplete := discoveryComplete s |}.

Definition destroySocket (s : State) : State :=
  {| buffer := buffer s; store := store s; timeoutArmed := timeoutArmed s;
     written := written s; ended := ended s; destroyed := true;
     discoveryComplete := discoveryComplete s |}.

Section Handlers.

Variable xml_parse : string -> result jsval.
(** [Buffer.from(file, 'base64').toString('utf8')]; it throws on a value
    that is not text. *)
Variable base64_decode : jsval -> result string.
Variable cfg : Config.

(** The callback of [setTimeout(..., 10000)]; it runs only while armed. *)
Definition onTimeout (s : State) : State :=
  if timeoutArmed s then
    emitDiscoveryComplete [] (destroySocket (clearTimeout s))
  else s.

(** The callback of [configSocket.connect]. *)
Definition onConnect (s : State) : State :=
  let s := clearTimeout s in
  if (negb (String.eqb (username cfg) "") && negb (String.eqb (password cfg) ""))%bool
  then write (loginRequest cfg) s
  else write backupRequest s.

(** The ['data'] listener.  Both [try] blocks only log what they catch.
    The byte-order mark the listener strips from a chunk is a code unit
    above 255, so no modelled chunk holds one; the copy of the backup
    written to the home directory is not part of the state. *)
Definition onData (data : string) (s : State) : State :=
  let s := setBuffer (buffer s +:+ data) s in
  if (includes (buffer s) "</IBackup>" || includes (buffer s) "</ILogin>")%bool then
    let cleaned :=
      replaceFirst "?>" "</File>"
        (replaceFirst ("<?File Encode=" +:+ String Regex.dquote "" +:+ "Base64"
                         +:+ String Regex.dquote "" +:+ " /")
                      "<File>" (buffer s)) in
    let s := setBuffer cleaned s in
    match rbind (xml_parse cleaned) (fun parsed =>
          rbind (getProp parsed "ILogin") (fun login => Ok (parsed, login))) with
    | Throw => s
    | Ok (parsed, login) =>
        if truthy (optField (optField login "Login") "return") then
          write backupRequest (setBuffer "" s)
        else
          let file :=
            optField (optField (optField (field parsed "IBackup") "GetFile") "return") "File" in
          if truthy file then
            match base64_decode file with
            | Throw => s
            | Ok fileContent =>
                match processBackupFile xml_parse cfg fileContent (store s) with
                | (Ok _, st) => endSocket (setStore st s)
                | (Throw, st) => setStore st s
                end
            end
          else s
    end
  else s.

(** The ['error'] listener. *)
Definition onError (message : string) (s : State) : State :=
  emitDiscoveryComplete [] (clearTimeout s).

(** The ['close'] listener. *)
Definition onClose (s : State) : State :=
  let s := clearTimeout s in
  emitDiscoveryComplete (devices (store s)) s.

(** What the socket and the timer deliver to the callbacks. *)
Inductive Callback : Type :=
| Timeout
| Connect
| Data (chunk : string)
| Error (message : string)
| Close.

Definition step (s : State) (c : Callback) : State :=
  match c with
  | Timeout => onTimeout s
  | Connect => onConnect s
  | Data chunk => onData chunk s
  | Error message => onError message s
  | Close => onClose s
  end.

Definition run (trace : list Callback) : State := fold_left step trace initial.

End Handlers.

(** The three outcomes of a run, as the callbacks Node delivers: a
    destroyed socket and a socket that failed both emit ['close']. *)
Definition timeoutBeforeConnection : list Callback := [Timeout; Close].
Definition socketError (message : string) : list Callback := [Error message; Close].
Definition backupRetrieved (chunks : list string) : list Callback :=
  (Connect :: map Data chunks ++ [Close])%list.

(** ** Vocabulary of the statements about discovery *)

(** Every device list in sight, stored or emitted, passed the filters. *)
Definition payloadsAdmitted (cfg : Config) (s : State) : Prop :=
  devicesAdmitted cfg (store s) /\
  Forall (Forall (admitted cfg)) (discoveryComplete s).

(** Sample inputs: a backup with the area 10 named Kitchen, a Load 55
    in it, and a Load 56 that refers to an area 11 the backup has not. *)
Definition quoted (text : string) : string :=
  String Regex.dquote "" +:+ text +:+ String Regex.dquote "".

Definition sampleObjects : string :=
  "<Object><Area VID=" +:+ quoted "10" +:+ "><Name>Kitchen</Name></Area></Object>"
  +:+ "<Object><Load VID=" +:+ quoted "55"
  +:+ "><Name>Lamp</Name><Area>10</Area><LoadType>Dimmer</LoadType></Load></Object>"
  +:+ "<Object><Load VID=" +:+ quoted "56"
  +:+ "><Name>Spot</Name><Area>11</Area></Load></Object>".

Definition sampleBackup : string :=
  "<Project><Objects>" +:+ sampleObjects +:+ "</Objects></Project>".

(** The same objects with the closing tag of the section cut short:
    malformed, and still holding the [Project] opening and closing tags. *)
Definition malformedBackup : string :=
  "<Project><Objects>" +:+ sampleObjects +:+ "</Objects</Project>".

(** A backup whose devices stand outside any [Objects] or [Project]
    section. *)
Definition bareBackup : string :=
  "<Load VID=" +:+ quoted "55" +:+ "><Name>Lamp</Name></Load>".

(** A backup without any area element. *)
Definition arealessBackup : string :=
  "<Project><Objects><Object><Load VID=" +:+ quoted "55"
  +:+ "><Name>Lamp</Name><Area>10</Area></Load></Object></Objects></Project>".

(** What the parser makes of the sample objects: attributes under the
    prefix [_], numeric text as numbers. *)
Definition sampleTree : jsval :=
  JObj [("Objects", JObj [("Object", JArr [
    JObj [("Area", JObj [("Name", JStr "Kitchen"); ("_VID", JNum (int 10))])];
    JObj [("Load", JObj [("Name", JStr "Lamp"); ("Area", JNum (int 10));
                         ("LoadType", JStr "Dimmer"); ("_VID", JNum (int 55))])];
    JObj [("Load", JObj [("Name", JStr "Spot"); ("Area", JNum (int 11));
                         ("_VID", JNum (int 56))])]])])].

Definition arealessTree : jsval :=
  JObj [("Objects", JObj [("Object", JArr [
    JObj [("Load", JObj [("Name", JStr "Lamp"); ("Area", JNum (int 10));
                         ("_VID", JNum (int 55))])]])])].

Definition sampleEnvelope : jsval :=
  JObj [("IBackup", JObj [("GetFile", JObj [("return",
    JObj [("File", JStr "QmFja3Vw")])])])].

(** A parser that answers the envelope with [sampleEnvelope] and any other
    text with [tree]; one that rejects every text. *)
Definition parserGiving (tree : jsval) (text : string) : result jsval :=
  if includes text "</IBackup>" then Ok sampleEnvelope else Ok tree.
Definition parserRejecting (text : string) : result jsval := Throw.

Definition decoderGiving (content : string) (file : jsval) : result string := Ok content.

Definition plainConfig : Config :=
  {| ipAddress := "192.168.1.100"; username := ""; password := "";
     omit := ""; range := "" |}.

Definition filteringConfig : Config :=
  {| ipAddress := "192.168.1.100"; username := ""; password := "";
     omit := "56, 7"; range := "1,100" |}.

Definition emptyStore : Store := {| areas := emptyAreas; devices := [] |}.

Definition lamp (areaName : string) : VantageDevice :=
  {| VID := "55"; Name := JStr "Lamp"; ObjectType := "Load";
     LoadType := JStr "Dimmer"; DeviceCategory := JStr ""; Area := JStr areaName |}.

Definition spot (areaName : string) : VantageDevice :=
  {| VID := "56"; Name := JStr "Spot"; ObjectType := "Load";
     LoadType := JStr ""; DeviceCategory := JStr ""; Area := JStr areaName |}.

End Discovery.

(* ===================================================================== *)
(** * Helpers of the class that no method calls                          *)
(* ===================================================================== *)

Module Util.
Import Backup.

(** [ToInt32]: the signed 32-bit integer congruent to [z]. *)
Definition toInt32 (z : Z) : Z := (z + 2 ^ 31) mod 2 ^ 32 - 2 ^ 31.

(** The loop of [hashString].  [hash << 5] is a 32-bit integer; the
    difference and the sum that follow stay below 2^34 in size, so they
    are exact as numbers, and [hash |= 0] brings the sum back to 32 bits. *)
Fixpoint hashLoop (hash : Z) (str : string) : Z :=
  match str with
  | EmptyString => hash
  | String c rest =>
      let char := Z.of_nat (nat_of_ascii c) in
      hashLoop (toInt32 (toInt32 (hash * 2 ^ 5) - hash + char)) rest
  end.

Definition hashString (str : string) : string :=
  number_to_string (int (hashLoop 0 str)).

(** [isValidDevice(obj)]. *)
Definition isValidDevice (obj : jsval) : bool :=
  if (negb (truthy obj) || negb (truthy (field obj "ObjectType")))%bool then false
  else if negb (match field obj "ObjectType" with
                | JStr type => existsb (String.eqb type) validTypes
                | _ => false
                end) then false
  else if negb (truthy (field obj "VID")) then false
  else true.

(** A device record as the object the listeners of [discoveryComplete]
    receive. *)
Definition deviceObject (d : VantageDevice) : jsval :=
  JObj [("VID", JStr (VID d)); ("Name", Name d); ("ObjectType", JStr (ObjectType d));
        ("LoadType", LoadType d); ("DeviceCategory", DeviceCategory d);
        ("Area", Area d)].

(** ** Vocabulary of the statements about [hashString] *)

(** The polynomial [c0 * 31^(n-1) + ... + c(n-1)] over the code units,
    continued from [acc], with no wrap-around. *)
Fixpoint polynomial31 (acc : Z) (str : string) : Z :=
  match str with
  | EmptyString => acc
  | String c rest => polynomial31 (31 * acc + Z.of_nat (nat_of_ascii c)) rest
  end.

(** ** Vocabulary of the statements about device records *)

(** A record with a VID, one of the five types, a name and an area. *)
Definition wellFormed (d : VantageDevice) : Prop :=
  VID d <> "" /\ In (ObjectType d) validTypes /\
  truthy (Name d) = true /\ truthy (Area d) = true.

(** A pattern made of text, a capturing run of one or more characters of
    a class, and text. *)
Definition capturesOneOrMore (p : Regex.pattern) : Prop :=
  exists before cls greedy after,
    p = [Regex.Lit before; Regex.Rep cls true greedy true; Regex.Lit after].

Definition areasNonEmpty (st : Store) : Prop := areasIsEmpty (areas st) = false.

Definition devicesWellFormed (st : Store) : Prop := Forall wellFormed (devices st).

(** The structured pass without its two fall-backs for a record of
    areas that is empty. *)
Definition structuredPassWithoutFallbacks (cfg : Config) (fileContent : string)
    (parsed : jsval) : M unit :=
  bind (lift (getProp parsed "Objects")) (fun objectsNode =>
  if (negb (truthy objectsNode) || negb (truthy (field objectsNode "Object")))%bool then
    modifyStore (extractDevicesDirectly cfg fileContent)
  else
    let objects := match field objectsNode "Object" with
                   | JArr items => items
                   | one => [one]
                   end in
    bind (forEach objects explicitAreaBody) (fun _ =>
    bind (forEach objects standaloneAreaBody) (fun _ =>
    forEach objects (deviceBody cfg)))).

(** What a guarded write keeps: the prototype, and every truthy entry. *)
Definition keeps (a a' : AreasRecord) : Prop :=
  protoSlot a' = protoSlot a /\
  (own a !! "__proto__" = None -> own a' !! "__proto__" = None) /\
  forall k v, own a !! k = Some v -> truthy v = true -> own a' !! k = Some v.

(** The prototype of the record, when one was assigned, is an object. *)
Definition protoIsObject (a : AreasRecord) : Prop :=
  forall p, protoSlot a = Some p -> truthy p = true.

End Util.

(* ===================================================================== *)
(** * Accessories (accessories/load.ts, switch.ts, blind.ts, thermostat.ts) *)
(* ===================================================================== *)

Module Accessories.
Import Command.

(** Each accessory keeps a [state] record; a handler of a characteristic
    changes it and writes on the command socket, an update from the
    controller only changes it.  The calls into the HomeKit library
    ([updateValue] and the like) are not part of the state. *)

(** ** [VantageLoad] *)

Record LoadState : Type := {
  brightness : jsnum;
  power : bool
}.

Definition loadInitial : LoadState := {| brightness := int 100; power := false |}.

(** [onSet] of the [On] characteristic, of a fan and of a light bulb. *)
Definition loadSetOn (vid : string) (value : bool) (st : LoadState)
    : LoadState * list string :=
  let brightness' :=
    if (value && num_eq (brightness st) (int 0))%bool then int 100 else brightness st in
  ({| brightness := brightness'; power := value |},
   setLoadLevel vid (if value then brightness' else int 0) (int 1)).

(** [onSet] of [Brightness] (a dimmer) and of [RotationSpeed] (a fan). *)
Definition loadSetBrightness (vid : string) (value : jsnum) (st : LoadState)
    : LoadState * list string :=
  ({| brightness := value; power := num_gt value (int 0) |},
   setLoadLevel vid value (int 1)).

(** [updateState(brightness)]. *)
Definition loadUpdateState (value : jsnum) (st : LoadState) : LoadState :=
  {| brightness := value; power := num_gt value (int 0) |}.

Inductive LoadOp : Type :=
| SetOn (value : bool)
| SetBrightness (value : jsnum)
| UpdateState (value : jsnum).

Definition loadStep (vid : string) (st : LoadState) (op : LoadOp) : LoadState * list string :=
  match op with
  | SetOn value => loadSetOn vid value st
  | SetBrightness value => loadSetBrightness vid value st
  | UpdateState value => (loadUpdateState value st, [])
  end.

(** A sequence of operations: the state reached and everything written. *)
Fixpoint loadRun (vid : string) (st : LoadState) (ops : list LoadOp)
    : LoadState * list string :=
  match ops with
  | [] => (st, [])
  | op :: rest =>
      let '(st1, w1) := loadStep vid st op in
      let '(st2, w2) := loadRun vid st1 rest in
      (st2, (w1 ++ w2)%list)
  end.

(** ** [VantageSwitch] *)

Record SwitchState : Type := { switchPower : bool }.

Definition switchInitial : SwitchState := {| switchPower := false |}.

Definition switchSetOn (vid : string) (value : bool) (st : SwitchState)
    : SwitchState * list string :=
  ({| switchPower := value |},
   setLoadLevel vid (if value then int 100 else int 0) (int 1)).

Definition switchUpdateState (isOn : bool) (st : SwitchState) : SwitchState :=
  {| switchPower := isOn |}.

(** ** [VantageBlind] *)

Record BlindState : Type := {
  currentPosition : jsnum;
  targetPosition : jsnum;
  positionState : Z               (* 0=decreasing, 1=increasing, 2=stopped *)
}.

(** [Characteristic.PositionState.STOPPED] of the HomeKit library: 2, as
    the comment on [positionState] in the source has it. *)
Definition STOPPED : Z := 2.

Definition blindInitial : BlindState :=
  {| currentPosition := int 100; targetPosition := int 100; positionState := 2 |}.

(** [onSet] of [TargetPosition]. *)
Definition blindSetTarget (vid : string) (newPosition : jsnum) (st : BlindState)
    : BlindState * list string :=
  ({| currentPosition := currentPosition st;
      targetPosition := newPosition;
      positionState :=
        if num_gt newPosition (currentPosition st) then 1
        else if num_lt newPosition (currentPosition st) then 0
        else positionState st |},
   setBlindPosition vid newPosition).

(** [updatePosition(position)]. *)
Definition blindUpdatePosition (position : jsnum) (st : BlindState) : BlindState :=
  {| currentPosition := position; targetPosition := position; positionState := STOPPED |}.

Inductive BlindOp : Type :=
| SetTarget (newPosition : jsnum)
| UpdatePosition (position : jsnum).

Definition blindStep (vid : string) (st : BlindState) (op : BlindOp)
    : BlindState * list string :=
  match op with
  | SetTarget newPosition => blindSetTarget vid newPosition st
  | UpdatePosition position => (blindUpdatePosition position st, [])
  end.

Fixpoint blindRun (vid : string) (st : BlindState) (ops : list BlindOp)
    : BlindState * list string :=
  match ops with
  | [] => (st, [])
  | op :: rest =>
      let '(st1, w1) := blindStep vid st op in
      let '(st2, w2) := blindRun vid st1 rest in
      (st2, (w1 ++ w2)%list)
  end.

(** ** [VantageThermostat] *)

Record ThermostatState : Type := {
  currentTemperature : jsnum;
  targetTemperature : jsnum;
  currentHeatingCoolingState : jsnum;
  targetHeatingCoolingState : jsnum;
  heatingThreshold : jsnum;
  coolingThreshold : jsnum;
  temperatureDisplayUnits : jsnum
}.

Definition thermostatInitial : ThermostatState :=
  {| currentTemperature := int 0; targetTemperature := int 0;
     currentHeatingCoolingState := int 0; targetHeatingCoolingState := int 0;
     heatingThreshold := int 0; coolingThreshold := int 0;
     temperatureDisplayUnits := int 1 |}.

(** [onSet] of [TargetHeatingCoolingState]. *)
Definition thermostatSetTargetState (vid : string) (value : jsnum) (st : ThermostatState)
    : ThermostatState * list string :=
  ({| currentTemperature := currentTemperature st;
      targetTemperature := targetTemperature st;
      currentHeatingCoolingState := currentHeatingCoolingState st;
      targetHeatingCoolingState := value;
      heatingThreshold := heatingThreshold st;
      coolingThreshold := coolingThreshold st;
      temperatureDisplayUnits := temperatureDisplayUnits st |},
   setThermostatMode vid value).

(** [onSet] of [TargetTemperature]. *)
Definition thermostatSetTargetTemperature (vid : string) (value : jsnum)
    (st : ThermostatState) : ThermostatState * list string :=
  ({| currentTemperature := currentTemperature st;
      targetTemperature := value;
      currentHeatingCoolingState := currentHeatingCoolingState st;
      targetHeatingCoolingState := targetHeatingCoolingState st;
      heatingThreshold := heatingThreshold st;
      coolingThreshold := coolingThreshold st;
      temperatureDisplayUnits := temperatureDisplayUnits st |},
   setThermostatTemperature vid value (targetHeatingCoolingState st)
     (heatingThreshold st) (coolingThreshold st)).

(** [onSet] of [TemperatureDisplayUnits]. *)
Definition thermostatSetDisplayUnits (value : jsnum) (st : ThermostatState)
    : ThermostatState :=
  {| currentTemperature := currentTemperature st;
     targetTemperature := targetTemperature st;
     currentHeatingCoolingState := currentHeatingCoolingState st;
     targetHeatingCoolingState := targetHeatingCoolingState st;
     heatingThreshold := heatingThreshold st;
     coolingThreshold := coolingThreshold st;
     temperatureDisplayUnits := value |}.

(** [updateTemperature(temperature)]. *)
Definition thermostatUpdateTemperature (temperature : jsnum) (st : ThermostatState)
    : ThermostatState :=
  {| currentTemperature := temperature;
     targetTemperature := targetTemperature st;
     currentHeatingCoolingState := currentHeatingCoolingState st;
     targetHeatingCoolingState := targetHeatingCoolingState st;
     heatingThreshold := heatingThreshold st;
     coolingThreshold := coolingThreshold st;
     temperatureDisplayUnits := temperatureDisplayUnits st |}.

(** [updateMode(mode)]. *)
Definition thermostatUpdateMode (mode : jsnum) (st : ThermostatState) : ThermostatState :=
  {| currentTemperature := currentTemperature st;
     targetTemperature := targetTemperature st;
     currentHeatingCoolingState := mode;
     targetHeatingCoolingState := mode;
     heatingThreshold := heatingThreshold st;
     coolingThreshold := coolingThreshold st;
     temperatureDisplayUnits := temperatureDisplayUnits st |}.

Inductive ThermostatOp : Type :=
| SetTargetState (value : jsnum)
| SetTargetTemperature (value : jsnum)
| SetDisplayUnits (value : jsnum)
| UpdateTemperature (temperature : jsnum)
| UpdateMode (mode : jsnum).

Definition thermostatStep (vid : string) (st : ThermostatState) (op : ThermostatOp)
    : ThermostatState * list string :=
  match op with
  | SetTargetState value => thermostatSetTargetState vid value st
  | SetTargetTemperature value => thermostatSetTargetTemperature vid value st
  | SetDisplayUnits value => (thermostatSetDisplayUnits value st, [])
  | UpdateTemperature temperature => (thermostatUpdateTemperature temperature st, [])
  | UpdateMode mode => (thermostatUpdateMode mode st, [])
  end.

Fixpoint thermostatRun (vid : string) (st : ThermostatState) (ops : list ThermostatOp)
    : ThermostatState * list string :=
  match ops with
  | [] => (st, [])
  | op :: rest =>
      let '(st1, w1) := thermostatStep vid st op in
      let '(st2, w2) := thermostatRun vid st1 rest in
      (st2, (w1 ++ w2)%list)
  end.

End Accessories.

(* ===================================================================== *)
(** * Platform (platform.ts) and configuration (config.ts)               *)
(* ===================================================================== *)

(** Regular expressions that are only tested against a whole string. *)
Module Re.

Inductive re : Type :=
| Void
| Eps
| Class (cls : ascii -> bool)
| Seq (r1 r2 : re)
| Alt (r1 r2 : re)
| Star (r : re).

Fixpoint nullable (r : re) : bool :=
  match r with
  | Void => false
  | Eps => true
  | Class _ => false
  | Seq r1 r2 => (nullable r1 && nullable r2)%bool
  | Alt r1 r2 => (nullable r1 || nullable r2)%bool
  | Star _ => true
  end.

Fixpoint deriv (c : ascii) (r : re) : re :=
  match r with
  | Void => Void
  | Eps => Void
  | Class cls => if cls c then Eps else Void
  | Seq r1 r2 =>
      if nullable r1 then Alt (Seq (deriv c r1) r2) (deriv c r2)
      else Seq (deriv c r1) r2
  | Alt r1 r2 => Alt (deriv c r1) (deriv c r2)
  | Star r1 => Seq (deriv c r1) (Star r1)
  end.

(** [/^r$/.test(s)]: some way of matching [r] covers all of [s]. *)
Fixpoint test (r : re) (s : string) : bool :=
  match s with
  | EmptyString => nullable r
  | String c s' => test (deriv c r) s'
  end.

Definition Chr (x : ascii) : re := Class (Ascii.eqb x).
(** The class [[lo-hi]]. *)
Definition Range (lo hi : ascii) : re :=
  Class (fun c => (Nat.leb (nat_of_ascii lo) (nat_of_ascii c)
                   && Nat.leb (nat_of_ascii c) (nat_of_ascii hi))%bool).
Definition Opt (r : re) : re := Alt r Eps.

(** The strings a pattern matches as a whole. *)
Inductive Lang : re -> string -> Prop :=
| LangEps : Lang Eps ""
| LangClass cls c : cls c = true -> Lang (Class cls) (String c "")
| LangSeq r1 r2 s1 s2 : Lang r1 s1 -> Lang r2 s2 -> Lang (Seq r1 r2) (s1 +:+ s2)
| LangAltL r1 r2 s : Lang r1 s -> Lang (Alt r1 r2) s
| LangAltR r1 r2 s : Lang r2 s -> Lang (Alt r1 r2) s
| LangStarNil r : Lang (Star r) ""
| LangStarCons r s1 s2 : Lang r s1 -> Lang (Star r) s2 -> Lang (Star r) (s1 +:+ s2).

End Re.

Module Platform.
Import Command Backup Accessories.

(** The fields of the platform configuration the code reads; a field that
    is not set is [None]. *)
Record PlatformConfig : Type := {
  ipaddress : option string;
  username : option string;
  password : option string;
  omit : option string;
  range : option string;
  usecache : option bool;
  debug : option bool
}.


(** [field || '']. *)
Definition orEmpty (field : option string) : string := default "" field.

(** ** [ConfigValidator.validate] *)

(** [25[0-5]|2[0-4][0-9]|[01]?[0-9][0-9]?]. *)
Definition octetRegex : Re.re :=
  Re.Alt (Re.Seq (Re.Chr "2") (Re.Seq (Re.Chr "5") (Re.Range "0" "5")))
    (Re.Alt (Re.Seq (Re.Chr "2") (Re.Seq (Re.Range "0" "4") (Re.Range "0" "9")))
       (Re.Seq (Re.Opt (Re.Alt (Re.Chr "0") (Re.Chr "1")))
          (Re.Seq (Re.Range "0" "9") (Re.Opt (Re.Range "0" "9"))))).

Definition octetDot : Re.re := Re.Seq octetRegex (Re.Chr ".").

(** [ipRegex], between its anchors. *)
Definition ipRegex : Re.re :=
  Re.Seq (Re.Seq octetDot (Re.Seq octetDot octetDot)) octetRegex.




Definition parsedRange (text : string) : list jsnum :=
  map (fun x => parseInt (trim x)) (split "," text).


(** The configuration the constructor of the platform gives the
    controller client. *)
Definition infusionConfig (config : PlatformConfig) : Config :=
  {| Backup.ipAddress := orEmpty (ipaddress config);
     Backup.username := orEmpty (username config);
     Backup.password := orEmpty (password config);
     Backup.omit := orEmpty (omit config);
     Backup.range := orEmpty (range config) |}.

(** ** [shouldSkipDevice], on the VID of a device record *)

Definition shouldSkipDevice (config : PlatformConfig) (vidStr : string) : bool :=
  let omitList := map trim (split "," (orEmpty (omit config))) in
  if existsb (String.eqb vidStr) omitList then true
  else
    let numVid := parseInt vidStr in
    if negb (isNaN numVid) then
      let r := parsedRange (orEmpty (range config)) in
      if Nat.eqb (length r) 2 then
        if (num_lt numVid (rangeBound r 0) || num_gt numVid (rangeBound r 1))%bool then true
        else false
      else false
    else false.

(** ** The accessory of a device *)

(** [device.LoadType?.includes('Relay')]: a TypeError on a value that has
    no method of that name. *)
Definition loadTypeIncludesRelay (d : VantageDevice) : result bool :=
  match LoadType d with
  | JStr text => Ok (includes text "Relay")
  | JUndefined | JNull => Ok false
  | JArr items => Ok (existsb (fun x => isString x "Relay") items)
  | _ => Throw
  end.

Definition isRelay (d : VantageDevice) : result bool := loadTypeIncludesRelay d.

Definition nonDimmableTypes : list string :=
  ["Fluor. Mag non-Dim"; "LED non-Dim"; "Fluor. Electronic non-Dim";
   "Low Voltage Relay"; "High Voltage Relay"; "Motor"].

Definition isDimmable (d : VantageDevice) : result bool :=
  if negb (String.eqb (ObjectType d) "Load") then Ok false
  else
    rbind (loadTypeIncludesRelay d) (fun relay =>
    if relay then Ok false
    else Ok (negb (existsb (isString (LoadType d)) nonDimmableTypes))).

Definition getDeviceType (d : VantageDevice) : result string :=
  if String.eqb (ObjectType d) "Thermostat" then Ok "thermostat"
  else if includes (ObjectType d) "Blind" then Ok "blind"
  else
    rbind (isRelay d) (fun relay =>
    if relay then Ok "relay"
    else if String.eqb (ObjectType d) "Load" then
      rbind (isDimmable d) (fun dimmable => Ok (if dimmable then "dimmer" else "non-dimmer"))
    else Ok "non-dimmer").

(** [getDeviceName]; a device record has no [DName]. *)
Definition getDeviceName (d : VantageDevice) : result string :=
  let name := js_or (Name d) (JStr "") in
  rbind
    (if truthy (Area d) then
       rbind (ToString (Area d)) (fun areaName =>
       match name with
       | JStr text =>
           Ok (if includes text areaName then name
               else JStr (areaName +:+ " " +:+ text))
       | JArr items =>
           if existsb (fun x => isString x areaName) items then Ok name
           else rbind (ToString name) (fun text => Ok (JStr (areaName +:+ " " +:+ text)))
       | _ => Throw
       end)
     else Ok name)
    (fun name' =>
       match name' with
       | JStr text =>
           let cleaned := trim (replaceFirst "-" "" text) in
           Ok (if String.eqb cleaned "" then "Device " +:+ VID d else cleaned)
       | _ => Throw
       end).

Inductive Handler : Type :=
| ThermostatHandler
| BlindHandler
| SwitchHandler
| LoadHandler (type : string).

(** The handler [setupAccessoryHandler] creates, [None] where it warns of
    an unknown device type and returns. *)
Definition setupAccessoryHandler (d : VantageDevice) : result (option Handler) :=
  rbind (getDeviceName d) (fun _ =>
  rbind (getDeviceType d) (fun type =>
  if String.eqb (ObjectType d) "Thermostat" then Ok (Some ThermostatHandler)
  else if existsb (String.eqb (ObjectType d)) ["Blind"; "RelayBlind"; "QubeBlind"] then
    Ok (Some BlindHandler)
  else if String.eqb (ObjectType d) "Load" then
    rbind (isRelay d) (fun relay =>
    Ok (Some (if relay then SwitchHandler else LoadHandler type)))
  else Ok None)).

(** ** The listeners of [setupEventHandlers] *)

Inductive Accessory : Type :=
| LoadAccessory (st : LoadState)
| SwitchAccessory (st : SwitchState)
| BlindAccessory (st : BlindState)
| ThermostatAccessory (st : ThermostatState).

(** The listener of an event over [deviceMap]; [vid.toString()] is a
    TypeError on a missing [vid].  No listener is registered for
    [thermostatDidChange]. *)
Definition onEvent (ev : Event) (deviceMap : gmap string Accessory)
    : result (gmap string Accessory) :=
  match ev with
  | loadStatusChange None _ | blindStatusChange None _
  | thermostatIndoorTemperatureChange None _ | thermostatIndoorModeChange None _ _ => Throw
  | loadStatusChange (Some vid) value =>
      match deviceMap !! vid with
      | Some (LoadAccessory st) =>
          Ok (<[vid := LoadAccessory (loadUpdateState value st)]> deviceMap)
      | Some (SwitchAccessory st) =>
          Ok (<[vid := SwitchAccessory (switchUpdateState (num_gt value (int 0)) st)]> deviceMap)
      | _ => Ok deviceMap
      end
  | blindStatusChange (Some vid) position =>
      match deviceMap !! vid with
      | Some (BlindAccessory st) =>
          Ok (<[vid := BlindAccessory (blindUpdatePosition position st)]> deviceMap)
      | _ => Ok deviceMap
      end
  | thermostatIndoorTemperatureChange (Some vid) temp =>
      match deviceMap !! vid with
      | Some (ThermostatAccessory st) =>
          Ok (<[vid := ThermostatAccessory (thermostatUpdateTemperature temp st)]> deviceMap)
      | _ => Ok deviceMap
      end
  | thermostatIndoorModeChange (Some vid) mode _ =>
      match deviceMap !! vid with
      | Some (ThermostatAccessory st) =>
          Ok (<[vid := ThermostatAccessory (thermostatUpdateMode (int mode) st)]> deviceMap)
      | _ => Ok deviceMap
      end
  | thermostatDidChange _ => Ok deviceMap
  end.

(** The events of a chunk, delivered in order; a listener that throws
    ends the delivery. *)
Fixpoint deliver (events : list Event) (deviceMap : gmap string Accessory)
    : result (gmap string Accessory) :=
  match events with
  | [] => Ok deviceMap
  | ev :: rest => rbind (onEvent ev deviceMap) (deliver rest)
  end.

(** ** Vocabulary of the statements about the configuration *)

Definition isDigit (c : ascii) : Prop := (48 <= nat_of_ascii c <= 57)%nat.

(** The value of a decimal digit. *)
Definition digitOf (c : ascii) : Z := Z.of_nat (nat_of_ascii c) - 48.

(** One, two or three decimal digits, three of them only up to 255;
    leading zeros count as digits. *)
Inductive isOctet : string -> Prop :=
| Octet1 a : isDigit a -> isOctet (String a "")
| Octet2 a b : isDigit a -> isDigit b -> isOctet (String a (String b ""))
| Octet3 a b c :
    isDigit a -> isDigit b -> isDigit c ->
    100 * digitOf a + 10 * digitOf b + digitOf c <= 255 ->
    isOctet (String a (String b (String c ""))).

Definition dottedQuad (s : string) : Prop :=
  exists o1 o2 o3 o4,
    isOctet o1 /\ isOctet o2 /\ isOctet o3 /\ isOctet o4 /\
    s = o1 +:+ "." +:+ o2 +:+ "." +:+ o3 +:+ "." +:+ o4.


(** ** Sample configuration of the platform *)

Definition sampleConfig : PlatformConfig :=
  {| ipaddress := Some "192.168.1.100"; username := None; password := None;
     omit := Some "56, 7"; range := Some "1,100"; usecache := None; debug := None |}.

(** ** Vocabulary of the statements about status lines and accessories *)

(** The character [c] does not occur in [s]. *)
Fixpoint lacks (c : ascii) (s : string) : bool :=
  match s with
  | EmptyString => true
  | String x rest => (negb (Ascii.eqb x c) && lacks c rest)%bool
  end.

(** A token of a line: no space and no newline in it. *)
Definition isToken (s : string) : bool := (lacks SP s && lacks LF s)%bool.

(** Tokens with single spaces between them. *)
Fixpoint joinTokens (tokens : list string) : string :=
  match tokens with
  | [] => ""
  | [t] => t
  | t :: rest => t +:+ String SP (joinTokens rest)
  end.

(** A level prints to a token that reads back as the same level. *)
Definition levelReadsBack (z : Z) : bool :=
  (isToken (number_to_string (int z))
   && match parseInt (number_to_string (int z)) with
      | Dec m e => (m =? z) && (e =? 0)
      | _ => false
      end)%bool.

(** The word [setThermostatMode] writes for a mode. *)
Definition modeWord (mode : jsnum) : string :=
  default "OFF" (modeMap (number_to_string mode)).

(** The load invariant: an accessory that is on has a brightness other
    than zero. *)
Definition onMeansLit (st : LoadState) : Prop :=
  power st = true -> num_eq (brightness st) (int 0) = false.

Definition isSetTarget (op : BlindOp) : Prop :=
  match op with
  | SetTarget _ => True
  | UpdatePosition _ => False
  end.

(** The LoadType values that make a load that is no relay a non-dimmer. *)
Definition plainNonDimmableTypes : list string :=
  ["Fluor. Mag non-Dim"; "LED non-Dim"; "Fluor. Electronic non-Dim"; "Motor"].

(** The handler of a device whose load type is the text [loadType]. *)
Definition handlerFor (objectType loadType : string) : Handler :=
  if String.eqb objectType "Thermostat" then ThermostatHandler
  else if String.eqb objectType "Load" then
    if includes loadType "Relay" then SwitchHandler
    else LoadHandler (if existsb (String.eqb loadType) plainNonDimmableTypes
                      then "non-dimmer" else "dimmer")
  else BlindHandler.

End Platform.

(* ===================================================================== *)
(** * Properties                                                         *)
(* ===================================================================== *)

Import Command.

(** ** The built-ins on sample inputs *)

Example parseInt_samples :
  map parseInt ["75"; " -0x1Fz"; "12abc"; "abc"; ""; "undefined"; "+7.9"; "0x"]
  = [int 75; int (-31); int 12; NaN; NaN; NaN; int 7; NaN].
Proof. reflexivity. Qed.

Example parseFloat_samples :
  map parseFloat ["68.5"; " -.5e-3x"; "5."; "."; "1e"; "-Infinity"; "abc"; "72"]
  = [Dec 685 (-1); Dec (-5) (-4); Dec 5 0; NaN; Dec 1 0; Infinity true; NaN; Dec 72 0].
Proof. reflexivity. Qed.

Example number_to_string_samples :
  map number_to_string
      [int 80; Dec 685 (-1); Dec (-5) 21; Dec 1 (-7); Dec 12 (-4); int 0; Dec 1200 (-2)]
  = ["80"; "68.5"; "-5e+21"; "1e-7"; "0.0012"; "0"; "12"].
Proof. vm_compute. reflexivity. Qed.

Example split_samples :
  split " " "S:LOAD 12 75" = ["S:LOAD"; "12"; "75"] /\
  split " " "" = [""] /\
  split "," "1, 2,,3" = ["1"; " 2"; ""; "3"].
Proof. repeat split; reflexivity. Qed.

Example trim_samples :
  map trim ["  12 "; "a b"; "   "; ""] = ["12"; "a b"; ""; ""].
Proof. reflexivity. Qed.

Example includes_samples :
  includes "XHEATX" "HEAT" = true /\ includes "HEA" "HEAT" = false /\ includes "" "" = true.
Proof. repeat split; reflexivity. Qed.

Example replaceFirst_sample : replaceFirst "?>" "</File>" "a?>b?>" = "a</File>b?>".
Proof. reflexivity. Qed.

(** A lazy repetition stops at the first closing tag, a search resumes
    after the last match, and the tag name [Load] also opens at [LoadType]. *)
Example execAll_sample :
  Regex.execAll (Backup.deviceRegex "Load")
    "<Load a><Name>A</Name></Load><LoadType><Name>B</Name></Load></Load>"
  = [("<Load a><Name>A</Name></Load>", [" a"; "A"]);
     ("<LoadType><Name>B</Name></Load>", ["Type"; "B"])].
Proof. vm_compute. reflexivity. Qed.

Example ToString_samples :
  map ToString [JNum (int 55); JStr "a"; JArr [JNum (int 1); JNull; JStr "b"]; JObj [];
                JObj [("toString", JStr "x")]; JBool true]
  = [Ok "55"; Ok "a"; Ok "1,,b"; Ok "[object Object]"; Throw; Ok "true"].
Proof. vm_compute. reflexivity. Qed.

(** ** Line decoding *)

Lemma split_nonempty (sep : ascii) (s : string) : split sep s <> [].
Proof.
  destruct s as [|c s]; simpl; [discriminate|].
  destruct (Ascii.eqb c sep); [discriminate|].
  destruct (split sep s); discriminate.
Qed.

Lemma append_nil_l (b : string) : "" +:+ b = b.
Proof. reflexivity. Qed.

Lemma append_cons (c : ascii) (a b : string) : String c a +:+ b = String c (a +:+ b).
Proof. reflexivity. Qed.

Lemma split_app_sep (sep : ascii) (a b : string) :
  split sep (a +:+ String sep b) = (split sep a ++ split sep b)%list.
Proof.
  induction a as [|c a IH]; [rewrite append_nil_l|rewrite append_cons]; simpl.
  - rewrite Ascii.eqb_refl. reflexivity.
  - destruct (Ascii.eqb c sep).
    + rewrite IH. reflexivity.
    + rewrite IH. pose proof (split_nonempty sep a) as Hne.
      destruct (split sep a) as [|w ws]; [congruence|]. reflexivity.
Qed.

Lemma string_app_assoc (a b c : string) : (a +:+ b) +:+ c = a +:+ (b +:+ c).
Proof.
  induction a as [|x a IH]; [reflexivity|].
  rewrite !append_cons. now rewrite IH.
Qed.

Lemma decodeLines_newline_chunk (body rest : string) :
  decodeLines ((body +:+ nl) +:+ rest)
  = (map (split SP) (split LF body) ++ decodeLines rest)%list.
Proof.
  unfold decodeLines, nl. rewrite string_app_assoc, append_cons, append_nil_l.
  rewrite split_app_sep, map_app. reflexivity.
Qed.

Lemma nonBlank_app (l1 l2 : list (list string)) :
  nonBlank (l1 ++ l2) = (nonBlank l1 ++ nonBlank l2)%list.
Proof. unfold nonBlank. apply List.filter_app. Qed.

Lemma string_app_empty_r (a : string) : a +:+ "" = a.
Proof.
  induction a as [|x a IH]; [reflexivity|]. rewrite append_cons. now rewrite IH.
Qed.

(** C1, as the code has it: when every chunk ends right after a newline,
    feeding the chunks one at a time hands the dispatcher the same ordered
    tokenizations of non-empty lines as feeding the unsplit stream.  Nothing
    is carried from one chunk to the next. *)
Theorem chunks_at_line_boundaries_decode_alike (chunks : list string) :
  Forall endsWithNewline chunks ->
  nonBlank (feedChunks chunks) = nonBlank (decodeLines (joinChunks chunks)).
Proof.
  induction 1 as [|chunk chunks [body ->] _ IH]; [reflexivity|].
  unfold feedChunks in *. simpl.
  rewrite decodeLines_newline_chunk, !nonBlank_app, <- IH. f_equal.
  replace (body +:+ nl) with ((body +:+ nl) +:+ "") by apply string_app_empty_r.
  rewrite decodeLines_newline_chunk, nonBlank_app. simpl.
  now rewrite app_nil_r.
Qed.

Lemma chunks_at_line_boundaries_decode_alike_witness :
  nonBlank (feedChunks ["S:LOAD 12 75" +:+ nl; "S:BLIND 3 40" +:+ nl])
  = nonBlank (decodeLines (joinChunks ["S:LOAD 12 75" +:+ nl; "S:BLIND 3 40" +:+ nl])).
Proof.
  apply chunks_at_line_boundaries_decode_alike.
  repeat constructor; eexists; reflexivity.
Defined.

(** C1, as stated, fails: a line cut inside is decoded as two lines. *)
Lemma split_inside_a_line_decodes_differently :
  joinChunks ["S:LO"; "AD 12 75" +:+ nl] = "S:LOAD 12 75" +:+ nl /\
  feedChunks ["S:LO"; "AD 12 75" +:+ nl] = [["S:LO"]; ["AD"; "12"; "75"]; [""]] /\
  decodeLines ("S:LOAD 12 75" +:+ nl) = [["S:LOAD"; "12"; "75"]; [""]] /\
  feedChunks ["S:LO"; "AD 12 75" +:+ nl] <> decodeLines (joinChunks ["S:LO"; "AD 12 75" +:+ nl]).
Proof. repeat split; try reflexivity. vm_compute. discriminate. Qed.

(** ** Dispatch *)








(** ** Outbound writes *)

Lemma num_eq_int_inj (x : jsnum) (a b : Z) :
  num_eq x (int a) = true -> num_eq x (int b) = true -> a = b.
Proof.
  unfold num_eq, int. destruct x as [| n |m e]; simpl; try discriminate.
  - destruct n; discriminate.
  - set (k := 0 - Z.min e 0).
    assert (0 < 10 ^ k) by (apply Z.pow_pos_nonneg; lia).
    destruct (Z.compare_spec (m * 10 ^ (e - Z.min e 0)) (a * 10 ^ k)); try discriminate.
    destruct (Z.compare_spec (m * 10 ^ (e - Z.min e 0)) (b * 10 ^ k)); try discriminate.
    intros _ _. nia.
Qed.

(** C6: in mode 1 (Heat) the call writes the HEAT setpoint line, in mode 2
    (Cool) the COOL setpoint line; in mode 3 (Auto) it writes the COOL line
    when the value exceeds the cooling threshold, else the HEAT line when the
    value is below the heating threshold, else nothing. *)
Theorem setThermostatTemperature_writes (vid : string) (value mode heating cooling : jsnum) :
  (num_eq mode (int 1) = true ->
   setThermostatTemperature vid value mode heating cooling
   = ["THERMTEMP " +:+ vid +:+ " HEAT " +:+ number_to_string value +:+ nl]) /\
  (num_eq mode (int 2) = true ->
   setThermostatTemperature vid value mode heating cooling
   = ["THERMTEMP " +:+ vid +:+ " COOL " +:+ number_to_string value +:+ nl]) /\
  (num_eq mode (int 3) = true ->
   (num_gt value cooling = true ->
    setThermostatTemperature vid value mode heating cooling
    = ["THERMTEMP " +:+ vid +:+ " COOL " +:+ number_to_string value +:+ nl]) /\
   (num_gt value cooling = false -> num_lt value heating = true ->
    setThermostatTemperature vid value mode heating cooling
    = ["THERMTEMP " +:+ vid +:+ " HEAT " +:+ number_to_string value +:+ nl]) /\
   (num_gt value cooling = false -> num_lt value heating = false ->
    setThermostatTemperature vid value mode heating cooling = [])).
Proof.
  unfold setThermostatTemperature, thermtemp, nl.
  split; [|split; [|intros H3; split; [|split]]].
  - intros ->. reflexivity.
  - intros H2. destruct (num_eq mode (int 1)) eqn:H1.
    + pose proof (num_eq_int_inj _ _ _ H1 H2). discriminate.
    + rewrite H2. reflexivity.
  - intros ->.
    destruct (num_eq mode (int 1)) eqn:H1;
      [pose proof (num_eq_int_inj _ _ _ H1 H3); discriminate|].
    destruct (num_eq mode (int 2)) eqn:H2;
      [pose proof (num_eq_int_inj _ _ _ H2 H3); discriminate|].
    rewrite H3. reflexivity.
  - intros -> ->.
    destruct (num_eq mode (int 1)) eqn:H1;
      [pose proof (num_eq_int_inj _ _ _ H1 H3); discriminate|].
    destruct (num_eq mode (int 2)) eqn:H2;
      [pose proof (num_eq_int_inj _ _ _ H2 H3); discriminate|].
    rewrite H3. reflexivity.
  - intros -> ->.
    destruct (num_eq mode (int 1)) eqn:H1;
      [pose proof (num_eq_int_inj _ _ _ H1 H3); discriminate|].
    destruct (num_eq mode (int 2)) eqn:H2;
      [pose proof (num_eq_int_inj _ _ _ H2 H3); discriminate|].
    rewrite H3. reflexivity.
Qed.

Lemma setThermostatTemperature_writes_witness :
  setThermostatTemperature "7" (int 72) (int 3) (int 65) (int 75) = [] /\
  setThermostatTemperature "7" (int 80) (int 3) (int 65) (int 75)
  = ["THERMTEMP 7 COOL 80" +:+ nl] /\
  setThermostatTemperature "7" (Dec 215 (-1)) (int 1) (int 65) (int 75)
  = ["THERMTEMP 7 HEAT 21.5" +:+ nl].
Proof.
  pose proof (setThermostatTemperature_writes "7" (int 72) (int 3) (int 65) (int 75))
    as (_ & _ & Hdead).
  pose proof (setThermostatTemperature_writes "7" (int 80) (int 3) (int 65) (int 75))
    as (_ & _ & Hcool).
  pose proof (setThermostatTemperature_writes "7" (Dec 215 (-1)) (int 1) (int 65) (int 75))
    as (Hheat & _).
  split; [|split].
  - exact (proj2 (proj2 (Hdead eq_refl)) eq_refl eq_refl).
  - exact (proj1 (Hcool eq_refl) eq_refl).
  - exact (Hheat eq_refl).
Defined.

(** ** Reconnection *)

Lemma fold_reconnect_listeners (k : nat) (s : SocketState) :
  fold_left runCloseListener (repeat ReconnectClose k) s
  = {| closeListeners := closeListeners s;
       pendingTimers := (pendingTimers s ++ repeat 5000 k)%list |}.
Proof.
  revert s. induction k as [|k IH]; intros s; simpl.
  - rewrite app_nil_r. now destruct s.
  - rewrite IH. simpl. now rewrite <- app_assoc.
Qed.

Lemma emitClose_shape (s : SocketState) (k : nat) :
  closeListeners s = MainClose :: repeat ReconnectClose k ->
  emitClose s
  = {| closeListeners := MainClose :: repeat ReconnectClose (S k);
       pendingTimers := (pendingTimers s ++ repeat 5000 k)%list |}.
Proof.
  intros H. unfold emitClose. rewrite H.
  change (fold_left runCloseListener (MainClose :: repeat ReconnectClose k) s)
    with (fold_left runCloseListener (repeat ReconnectClose k) (setupReconnection s)).
  rewrite fold_reconnect_listeners. unfold setupReconnection. simpl.
  rewrite H. simpl. now rewrite repeat_cons.
Qed.

Lemma closeTimes_state (n : nat) :
  closeListeners (closeTimes n initialSocket) = MainClose :: repeat ReconnectClose n /\
  pendingTimers (closeTimes (S n) initialSocket)
  = (pendingTimers (closeTimes n initialSocket) ++ repeat 5000 n)%list.
Proof.
  induction n as [|n [IHl IHt]].
  - split; reflexivity.
  - assert (closeListeners (closeTimes (S n) initialSocket)
            = MainClose :: repeat ReconnectClose (S n)) as E.
    { change (closeTimes (S n) initialSocket)
        with (emitClose (closeTimes n initialSocket)).
      now rewrite (emitClose_shape _ n IHl). }
    split; [exact E|].
    change (closeTimes (S (S n)) initialSocket)
      with (emitClose (closeTimes (S n) initialSocket)).
    now rewrite (emitClose_shape _ (S n) E).
Qed.

(** C3, on the code: the first ['close'] of the command socket sets no
    timer, it only registers the listener that will; the close after [n]
    earlier ones sets [n] timers of 5000 ms, so the third close sets two. *)
Theorem close_number_n_sets_n_minus_one_timers :
  pendingTimers (emitClose initialSocket) = [] /\
  (forall n, pendingTimers (closeTimes (S n) initialSocket)
             = (pendingTimers (closeTimes n initialSocket) ++ repeat 5000 n)%list) /\
  pendingTimers (closeTimes 3 initialSocket) = [5000; 5000; 5000].
Proof.
  split; [reflexivity|]. split; [|reflexivity].
  intros n. apply closeTimes_state.
Qed.

(** ** The filters of the backup parser *)

Import Regex Backup.

Lemma parseInt_cases (s : string) : parseInt s = NaN \/ exists n, parseInt s = int n.
Proof.
  unfold parseInt.
  destruct (read_sign (trimStart s)) as [negative s1].
  destruct (match s1 with
            | String "0" (String "x" s') | String "0" (String "X" s') => (16, s')
            | _ => (10, s1)
            end) as [radix s2].
  destruct (read_digits radix 0 0 s2) as [[v count] rest].
  destruct count; [left|right; eexists]; reflexivity.
Qed.

Lemma existsb_eqb_In (x : string) (l : list string) :
  existsb (String.eqb x) l = true <-> In x l.
Proof.
  rewrite existsb_exists. split.
  - intros (y & Hy & E). apply String.eqb_eq in E. now subst.
  - intros H. exists x. split; [exact H|apply String.eqb_refl].
Qed.




Lemma Forall_flat_map {A B} (P : B -> Prop) (f : A -> list B) (l : list A) :
  (forall x, Forall P (f x)) -> Forall P (flat_map f l).
Proof.
  intros H. induction l as [|x l IH]; simpl; [constructor|].
  apply Forall_app. split; [apply H|exact IH].
Qed.

Lemma deviceOfMatch_admitted cfg a type m d :
  deviceOfMatch cfg a type m = Some d -> admitted cfg d.
Proof.
  unfold deviceOfMatch, admitted.
  destruct (directVid _ _) as [vid|]; [|discriminate].
  destruct (String.eqb _ ""); [discriminate|].
  destruct (vidExcluded _ _ vid) eqn:E; [discriminate|].
  intros [= <-]. exact E.
Qed.

Lemma directDevices_admitted cfg a fileContent :
  Forall (admitted cfg) (directDevices cfg a fileContent).
Proof.
  unfold directDevices. apply Forall_flat_map. intros type.
  apply Forall_forall. intros d Hd.
  apply list_elem_of_omap in Hd as (m & _ & Hm).
  eapply deviceOfMatch_admitted; eauto.
Qed.

Lemma extractDevicesDirectly_admitted cfg fileContent st :
  devicesAdmitted cfg st -> devicesAdmitted cfg (extractDevicesDirectly cfg fileContent st).
Proof.
  unfold devicesAdmitted, extractDevicesDirectly. simpl. intros H.
  apply Forall_app. split; [exact H|apply directDevices_admitted].
Qed.

Section Preservation.
Context (P : Store -> Prop).

Lemma preserves_ret {A} (a : A) : preserves P (ret a).
Proof. intros st H. exact H. Qed.

Lemma preserves_lift {A} (r : result A) : preserves P (lift r).
Proof. intros st H. exact H. Qed.

Lemma preserves_readAreas : preserves P readAreas.
Proof. intros st H. exact H. Qed.

Lemma preserves_bind {A B} (m : M A) (k : A -> M B) :
  preserves P m -> (forall a, preserves P (k a)) -> preserves P (bind m k).
Proof.
  intros Hm Hk st H. unfold bind. specialize (Hm st H).
  destruct (m st) as [[a|] st']; simpl in *; [apply Hk; exact Hm|exact Hm].
Qed.

Lemma preserves_tryCatch {A} (m handler : M A) :
  preserves P m -> preserves P handler -> preserves P (tryCatch m handler).
Proof.
  intros Hm Hh st H. unfold tryCatch. specialize (Hm st H).
  destruct (m st) as [[a|] st']; simpl in *; [exact Hm|apply Hh; exact Hm].
Qed.

Lemma preserves_forEach (xs : list jsval) (body : jsval -> M unit) :
  (forall x, preserves P (body x)) -> preserves P (forEach xs body).
Proof.
  intros Hb. induction xs as [|x xs IH]; simpl.
  - apply preserves_ret.
  - apply preserves_bind; [apply Hb|intros _; exact IH].
Qed.

End Preservation.

Lemma preserves_modifyAreas cfg f : preserves (devicesAdmitted cfg) (modifyAreas f).
Proof. intros st H. exact H. Qed.

Lemma preserves_push cfg d :
  admitted cfg d -> preserves (devicesAdmitted cfg) (push d).
Proof.
  intros Hd st H. unfold devicesAdmitted in *. simpl.
  apply Forall_app. split; [exact H|]. constructor; [exact Hd|constructor].
Qed.

Lemma preserves_direct cfg fileContent :
  preserves (devicesAdmitted cfg) (modifyStore (extractDevicesDirectly cfg fileContent)).
Proof. intros st H. simpl. now apply extractDevicesDirectly_admitted. Qed.

Ltac preserve_step :=
  first
    [ apply preserves_ret
    | apply preserves_lift
    | apply preserves_readAreas
    | apply preserves_modifyAreas
    | apply preserves_direct
    | apply preserves_forEach; intros ?
    | apply preserves_bind; [|intros ?]
    | apply preserves_tryCatch ].

Lemma preserves_explicitAreaBody cfg obj :
  preserves (devicesAdmitted cfg) (explicitAreaBody obj).
Proof.
  unfold explicitAreaBody, writeArea. preserve_step; [preserve_step|].
  destruct (_ && _)%bool; [|preserve_step].
  destruct (truthy _); repeat preserve_step.
Qed.

Lemma preserves_standaloneAreaBody cfg obj :
  preserves (devicesAdmitted cfg) (standaloneAreaBody obj).
Proof.
  unfold standaloneAreaBody, writeArea. preserve_step; [preserve_step|].
  destruct (_ && _)%bool; [|preserve_step].
  destruct (truthy _); [|preserve_step].
  preserve_step; [preserve_step|]. preserve_step; [preserve_step|].
  destruct (truthy _); preserve_step.
Qed.

Lemma preserves_altAreaBody cfg obj :
  preserves (devicesAdmitted cfg) (altAreaBody obj).
Proof.
  unfold altAreaBody, writeArea. preserve_step; [preserve_step|].
  destruct (_ || _)%bool; [|preserve_step].
  destruct (truthy _); repeat preserve_step.
Qed.

Lemma preserves_deviceBody cfg obj :
  preserves (devicesAdmitted cfg) (deviceBody cfg obj).
Proof.
  unfold deviceBody. preserve_step; [preserve_step|].
  destruct (findDeviceData validTypes obj) as [[deviceType deviceData]|]; [|preserve_step].
  preserve_step; [preserve_step|].
  destruct (String.eqb _ ""); [preserve_step|].
  destruct (vidExcluded _ _ _) eqn:E; [preserve_step|].
  preserve_step; [preserve_step|]. preserve_step; [preserve_step|].
  apply preserves_push. exact E.
Qed.

Lemma preserves_structuredPass cfg fileContent parsed :
  preserves (devicesAdmitted cfg) (structuredPass cfg fileContent parsed).
Proof.
  unfold structuredPass, whenNoAreas, writeArea. preserve_step; [preserve_step|].
  destruct (_ || _)%bool; [preserve_step|].
  preserve_step; [preserve_step; apply preserves_explicitAreaBody|].
  preserve_step; [preserve_step; apply preserves_standaloneAreaBody|].
  preserve_step.
  { preserve_step; [preserve_step|]. destruct (areasIsEmpty _); [|preserve_step].
    preserve_step. apply preserves_altAreaBody. }
  preserve_step.
  { preserve_step; [preserve_step|]. destruct (areasIsEmpty _); preserve_step. }
  preserve_step. apply preserves_deviceBody.
Qed.

Lemma preserves_processBackupFile xml_parse cfg raw :
  preserves (devicesAdmitted cfg) (processBackupFile xml_parse cfg raw).
Proof.
  unfold processBackupFile. preserve_step; [|preserve_step].
  preserve_step; [preserve_step|].
  destruct (objectsSection _); [|preserve_step].
  destruct (xml_parse _); [apply preserves_structuredPass|preserve_step].
Qed.

Import Discovery.

Lemma run_snoc xml_parse base64_decode cfg trace c :
  run xml_parse base64_decode cfg (trace ++ [c])
  = step xml_parse base64_decode cfg (run xml_parse base64_decode cfg trace) c.
Proof. unfold run. now rewrite fold_left_app. Qed.

Lemma step_payloadsAdmitted xml_parse base64_decode cfg s c :
  payloadsAdmitted cfg s -> payloadsAdmitted cfg (step xml_parse base64_decode cfg s c).
Proof.
  intros [Hst Hem]. destruct c as [| |chunk|message|]; simpl.
  - unfold onTimeout. destruct (timeoutArmed s); [|now split].
    split; [exact Hst|]. simpl. apply Forall_app. split; [exact Hem|].
    repeat constructor.
  - unfold onConnect. destruct (_ && _)%bool; split; assumption.
  - unfold onData. cbv zeta.
    destruct (_ || _)%bool; [|split; assumption].
    destruct (rbind _ _) as [[parsed login]|]; [|split; assumption].
    destruct (truthy _); [split; assumption|].
    destruct (truthy _); [|split; assumption].
    destruct (base64_decode _) as [fileContent|]; [|split; assumption].
    pose proof (preserves_processBackupFile xml_parse cfg fileContent _ Hst) as Hp.
    simpl in Hp.
    destruct (processBackupFile _ _ _ _) as [[[]|] st]; split; assumption.
  - split; [exact Hst|]. simpl. apply Forall_app. split; [exact Hem|].
    repeat constructor.
  - split; [exact Hst|]. simpl. apply Forall_app. split; [exact Hem|].
    constructor; [exact Hst|constructor].
Qed.

Lemma run_payloadsAdmitted xml_parse base64_decode cfg trace :
  payloadsAdmitted cfg (run xml_parse base64_decode cfg trace).
Proof.
  induction trace as [|c trace IH] using rev_ind.
  - split; constructor.
  - rewrite run_snoc. now apply step_payloadsAdmitted.
Qed.



(** C10: a VID that does not parse as an integer is excluded by no range:
    the test both passes apply then only asks whether the VID equals an
    entry of the omit list (the entries between the commas, trimmed); so
    the device a match of the direct pass yields, and what the structured
    pass does with an object, are the same under every configured range. *)
Theorem unparseable_vid_excluded_by_name_only (cfg : Config) (vid : string) :
  parseInt vid = NaN ->
  (forall bounds : list jsnum,
     vidExcluded (omitList cfg) bounds vid = true <-> In vid (omitList cfg)) /\
  (In vid (omitList cfg) <->
   omit cfg <> "" /\ exists entry, In entry (split "," (omit cfg)) /\ vid = trim entry) /\
  (forall r a type m,
     directVid (default "" (snd m !! 0%nat)) (fst m) = Some vid ->
     deviceOfMatch (withRange cfg r) a type m = deviceOfMatch cfg a type m) /\
  (forall r obj deviceType deviceData st,
     findDeviceData validTypes obj = Some (deviceType, deviceData) ->
     deviceVid deviceData = Ok vid ->
     deviceBody (withRange cfg r) obj st = deviceBody cfg obj st).
Proof.
  intros Hnan.
  assert (forall bounds, vidExcluded (omitList cfg) bounds vid
                         = existsb (String.eqb vid) (omitList cfg)) as Hex.
  { intros bounds. unfold vidExcluded. rewrite Hnan. simpl. apply orb_false_r. }
  split; [|split; [|split]].
  - intros bounds. rewrite Hex. apply existsb_eqb_In.
  - unfold omitList. destruct (String.eqb_spec (omit cfg) "") as [E|E].
    + split; [intros []|intros [H _]; contradiction].
    + rewrite in_map_iff. split.
      * intros (entry & <- & Hin). split; [exact E|]. now exists entry.
      * intros (_ & entry & Hin & ->). now exists entry.
  - intros r a type m Hvid. unfold deviceOfMatch. rewrite Hvid.
    change (omitList (withRange cfg r)) with (omitList cfg).
    now rewrite !Hex.
  - intros r obj deviceType deviceData st Hfind Hv. unfold deviceBody.
    rewrite Hfind, Hv. change (omitList (withRange cfg r)) with (omitList cfg).
    unfold bind, lift.
    destruct (getProp obj "Load"); [|reflexivity].
    destruct (String.eqb vid ""); [reflexivity|].
    now rewrite !Hex.
Qed.

Lemma unparseable_vid_excluded_by_name_only_witness :
  parseInt "L12" = NaN /\
  (vidExcluded (omitList filteringConfig) (rangeList filteringConfig) "L12" = true
   <-> In "L12" (omitList filteringConfig)).
Proof.
  split; [reflexivity|].
  apply (proj1 (unparseable_vid_excluded_by_name_only filteringConfig "L12" eq_refl)).
Defined.

(** ** The parser cascade *)

(** C9, as the code has it: [processBackupFile] always returns; when the
    text has an [Objects] or a [Project] section and the parser throws on
    it, or the parsed tree has no object collection, or the structured pass
    throws on the way, the store it leaves is the one the direct pass makes
    of the store reached so far; when the text has neither section no pass
    runs and the store is left as the area regex made it. *)
Theorem parser_returns_and_falls_through
    (xml_parse : string -> result jsval) (cfg : Config) (raw : string) (st : Store) :
  let fileContent := removeLineBreaks raw in
  let st1 := afterAreas fileContent st in
  let outcome := processBackupFile xml_parse cfg raw st in
  fst outcome = Ok tt /\
  (forall objectsXml, objectsSection fileContent = Some objectsXml ->
     (xml_parse objectsXml = Throw ->
      snd outcome = extractDevicesDirectly cfg fileContent st1) /\
     (forall parsed, xml_parse objectsXml = Ok parsed -> noObjectCollection parsed ->
      snd outcome = extractDevicesDirectly cfg fileContent st1) /\
     (forall parsed st2, xml_parse objectsXml = Ok parsed ->
      structuredPass cfg fileContent parsed st1 = (Throw, st2) ->
      snd outcome = extractDevicesDirectly cfg fileContent st2)) /\
  (objectsSection fileContent = None -> snd outcome = st1).
Proof.
  cbv zeta. unfold processBackupFile, tryCatch, bind, modifyAreas, modifyStore, ret.
  fold (afterAreas (removeLineBreaks raw) st).
  set (fileContent := removeLineBreaks raw). set (st1 := afterAreas fileContent st).
  split; [|split].
  - destruct (objectsSection fileContent) as [objectsXml|]; [|reflexivity].
    destruct (xml_parse objectsXml) as [parsed|]; [|reflexivity].
    destruct (structuredPass cfg fileContent parsed st1) as [[[]|] st2]; reflexivity.
  - intros objectsXml ->. split; [|split].
    + intros ->. reflexivity.
    + intros parsed -> Hno. unfold noObjectCollection in Hno.
      unfold structuredPass, bind, lift, modifyStore.
      destruct (getProp parsed "Objects") as [objectsNode|]; [|reflexivity].
      replace (negb (truthy objectsNode) || negb (truthy (field objectsNode "Object")))%bool
        with true; [reflexivity|].
      destruct Hno as [-> | ->]; [reflexivity|]. symmetry. apply orb_true_r.
    + intros parsed st2 -> ->. reflexivity.
  - intros ->. reflexivity.
Qed.

Lemma parser_returns_and_falls_through_witness :
  objectsSection (removeLineBreaks malformedBackup)
    = Some ("<Objects><Objects>" +:+ sampleObjects +:+ "</Objects</Objects>") /\
  devices (snd (processBackupFile parserRejecting plainConfig malformedBackup emptyStore))
    = [lamp "Kitchen"; spot "Main Area"].
Proof.
  assert (objectsSection (removeLineBreaks malformedBackup)
          = Some ("<Objects><Objects>" +:+ sampleObjects +:+ "</Objects</Objects>")) as E
    by (vm_compute; reflexivity).
  split; [exact E|].
  destruct (parser_returns_and_falls_through parserRejecting plainConfig
              malformedBackup emptyStore) as (_ & H & _).
  rewrite (proj1 (H _ E) eq_refl). vm_compute. reflexivity.
Defined.

(** C9, as stated, fails: on a text that has neither an [Objects] nor a
    [Project] section the parser returns without running the direct pass,
    which would have found the device in it. *)
Lemma no_section_no_direct_pass :
  objectsSection (removeLineBreaks bareBackup) = None /\
  devices (snd (processBackupFile parserRejecting plainConfig bareBackup emptyStore)) = [] /\
  devices (snd (processBackupFile (parserGiving sampleTree) plainConfig bareBackup emptyStore))
    = [] /\
  devices (extractDevicesDirectly plainConfig bareBackup emptyStore)
    = [{| VID := "55"; Name := JStr "Lamp"; ObjectType := "Load"; LoadType := JStr "";
          DeviceCategory := JStr ""; Area := JStr "Main Area" |}].
Proof. repeat split; vm_compute; reflexivity. Qed.

(** ** The area of a device *)

Lemma deviceBody_outcome cfg obj st r st' :
  deviceBody cfg obj st = (r, st') ->
  areas st' = areas st /\
  (devices st' = devices st \/
   exists d deviceType deviceData key,
     findDeviceData validTypes obj = Some (deviceType, deviceData) /\
     ToString (deviceAreaId deviceData) = Ok key /\
     devices st' = (devices st ++ [d])%list /\
     Area d = resolveArea (areas st) key).
Proof.
  unfold deviceBody, bind, lift, ret, readAreas, push.
  destruct (getProp obj "Load"); [|intros [= <- <-]; auto].
  destruct (findDeviceData validTypes obj) as [[deviceType deviceData]|];
    [|intros [= <- <-]; auto].
  destruct (deviceVid deviceData) as [vid|]; [|intros [= <- <-]; auto].
  destruct (String.eqb vid ""); [intros [= <- <-]; auto|].
  destruct (vidExcluded _ _ vid); [intros [= <- <-]; auto|].
  destruct (ToString (deviceAreaId deviceData)) as [key|] eqn:Ekey;
    [|intros [= <- <-]; auto].
  intros [= <- <-]. simpl. split; [reflexivity|]. right.
  eexists _, deviceType, deviceData, key.
  split; [reflexivity|split; [exact Ekey|split; reflexivity]].
Qed.

(** C5, as the code has it: the area field of every device either pass
    adds is [areas[ref]?.Name || 'Main Area'], where [ref] is the text of the
    [Area] element in the direct pass and the key of the area reference in
    the structured pass: the name of the collected area when [ref] is the
    identifier of one, and Main Area otherwise, for an empty reference and
    for one no collected area answers to alike.  The label made of Area and
    the identifier is computed by [processDevice] alone. *)
Theorem device_area_is_collected_name_or_main_area :
  (forall cfg a type m d,
     deviceOfMatch cfg a type m = Some d ->
     Area d = resolveArea a (default "" (firstCapture (element "Area") (fst m)))) /\
  (forall cfg obj st r st',
     deviceBody cfg obj st = (r, st') ->
     devices st' = devices st \/
     exists d deviceType deviceData key,
       findDeviceData validTypes obj = Some (deviceType, deviceData) /\
       ToString (deviceAreaId deviceData) = Ok key /\
       devices st' = (devices st ++ [d])%list /\
       Area d = resolveArea (areas st) key) /\
  (forall (a : AreasRecord) key vid name,
     own a !! key = Some (areaObject vid name) -> truthy name = true ->
     resolveArea a key = name) /\
  (forall (a : AreasRecord) key,
     own a !! key = None -> protoSlot a = None ->
     resolveArea a key = JStr "Main Area") /\
  (forall device (a : AreasRecord) key,
     truthy (field device "Area") = true -> ToString (field device "Area") = Ok key ->
     truthy (areasGet a key) = false ->
     processDeviceArea device a = JStr ("Area " +:+ key)).
Proof.
  split; [|split; [|split; [|split]]].
  - intros cfg a type m d. unfold deviceOfMatch.
    destruct (directVid _ _) as [vid|]; [|discriminate].
    destruct (String.eqb _ ""); [discriminate|].
    destruct (vidExcluded _ _ vid); [discriminate|].
    intros [= <-]. reflexivity.
  - intros cfg obj st r st' H. exact (proj2 (deviceBody_outcome _ _ _ _ _ H)).
  - intros a key vid name Hown Hname. unfold resolveArea, areasGet.
    rewrite Hown. unfold areaObject, optField, field, js_or. simpl.
    now rewrite Hname.
  - intros a key Hown Hproto. unfold resolveArea, areasGet.
    rewrite Hown, Hproto. destruct (String.eqb key "__proto__"); [reflexivity|].
    unfold inheritedFromObject. destruct (existsb _ _); reflexivity.
  - intros device a key Harea Hkey Hget. unfold processDeviceArea.
    now rewrite Harea, Hkey, Hget.
Qed.

Lemma device_area_is_collected_name_or_main_area_witness :
  resolveArea {| own := {["10" := areaObject (JStr "10") (JStr "Kitchen")]};
                 protoSlot := None |} "10" = JStr "Kitchen" /\
  resolveArea {| own := {["default_area" := defaultArea]}; protoSlot := None |} "10"
    = JStr "Main Area" /\
  devices (snd (processBackupFile (parserGiving sampleTree) plainConfig sampleBackup emptyStore))
    = [lamp "Kitchen"; spot "Main Area"] /\
  devices (snd (processBackupFile (parserGiving arealessTree) plainConfig arealessBackup
                  emptyStore))
    = [{| VID := "55"; Name := JStr "Lamp"; ObjectType := "Load"; LoadType := JStr "";
          DeviceCategory := JStr ""; Area := JStr "Main Area" |}].
Proof.
  destruct device_area_is_collected_name_or_main_area as (_ & _ & Hname & Hmain & _).
  split; [|split; [|split]].
  - apply (Hname _ "10" (JStr "10") (JStr "Kitchen")); reflexivity.
  - apply (Hmain _ "10"); reflexivity.
  - vm_compute. reflexivity.
  - vm_compute. reflexivity.
Defined.

(** C5, as stated, fails: a device whose area reference is not empty and
    answers to no collected area gets the area Main Area from both passes,
    not the label made of Area and the reference. *)
Lemma unresolved_area_is_main_area :
  devices (snd (processBackupFile (parserGiving sampleTree) plainConfig sampleBackup emptyStore))
    = [lamp "Kitchen"; spot "Main Area"] /\
  devices (snd (processBackupFile parserRejecting plainConfig malformedBackup emptyStore))
    = [lamp "Kitchen"; spot "Main Area"] /\
  Area (spot "Main Area") <> JStr "Area 11".
Proof. repeat split; try (vm_compute; reflexivity). discriminate. Qed.

(** ** Discovery *)

Lemma data_emits_nothing xml_parse base64_decode cfg chunks s :
  discoveryComplete (fold_left (step xml_parse base64_decode cfg) (map Data chunks) s)
  = discoveryComplete s.
Proof.
  revert s.
  induction chunks as [|chunk chunks IH]; intros s; [reflexivity|].
  simpl. rewrite IH. unfold onData. cbv zeta.
  destruct (_ || _)%bool; [|reflexivity].
  destruct (rbind _ _) as [[parsed login]|]; [|reflexivity].
  destruct (truthy _); [reflexivity|].
  destruct (truthy _); [|reflexivity].
  destruct (base64_decode _); [|reflexivity].
  destruct (processBackupFile _ _ _ _) as [[[]|] st]; reflexivity.
Qed.

(** C4, on the code: a socket error, and the time-out before a connection,
    each end with two [discoveryComplete] events, the empty list of the
    ['error'] listener (or of the time-out callback) and then the list the
    ['close'] listener emits; a run that connects and is closed emits one. *)
Theorem discovery_emits_twice_on_error_and_timeout
    (xml_parse : string -> result jsval) (base64_decode : jsval -> result string)
    (cfg : Config) :
  (forall message,
     discoveryComplete (run xml_parse base64_decode cfg (socketError message)) = [[]; []]) /\
  discoveryComplete (run xml_parse base64_decode cfg timeoutBeforeConnection) = [[]; []] /\
  (forall chunks,
     length (discoveryComplete (run xml_parse base64_decode cfg (backupRetrieved chunks)))
     = 1%nat).
Proof.
  split; [|split]; [reflexivity|reflexivity|].
  intros chunks. unfold run, backupRetrieved.
  change (Connect :: (map Data chunks ++ [Close])%list)
    with ([Connect] ++ map Data chunks ++ [Close])%list.
  rewrite !fold_left_app. simpl fold_left at 1.
  unfold onClose. simpl. rewrite length_app.
  rewrite data_emits_nothing.
  unfold onConnect. destruct (_ && _)%bool; reflexivity.
Qed.

(** ** The global search loop never runs out of fuel *)

Lemma stripPrefix_sound (p s rest : string) :
  stripPrefix p s = Some rest -> s = p +:+ rest.
Proof.
  revert s. induction p as [|a p IH]; intros s; simpl.
  - now intros [= ->].
  - destruct s as [|b s]; [discriminate|].
    destruct (Ascii.eqb_spec a b) as [->|]; [|discriminate].
    intros H. rewrite append_cons. f_equal. now apply IH.
Qed.

Lemma snoc_app (taken : string) (c : ascii) (s : string) :
  snoc taken c +:+ s = taken +:+ String c s.
Proof. unfold snoc. now rewrite string_app_assoc, append_cons, append_nil_l. Qed.

Lemma runRep_sound cls atLeastOne greedy capture (next : string -> option matched) :
  (forall s m caps rest, next s = Some (m, caps, rest) -> s = m +:+ rest) ->
  forall s0 taken m caps rest,
    runRep cls atLeastOne greedy capture next taken s0 = Some (m, caps, rest) ->
    taken +:+ s0 = m +:+ rest.
Proof.
  intros Hnext.
  assert (forall taken s0 m caps rest,
            (if (atLeastOne && String.eqb taken "")%bool then None
             else match next s0 with
                  | Some (m, caps, rest) =>
                      Some (taken +:+ m, if capture then taken :: caps else caps, rest)
                  | None => None
                  end) = Some (m, caps, rest) ->
            taken +:+ s0 = m +:+ rest) as Hstop.
  { intros taken s0 m0 caps0 rest0.
    destruct (_ && _)%bool; [discriminate|].
    destruct (next s0) as [[[m' caps'] rest']|] eqn:E'; [|discriminate].
    intros [= <- <- <-]. apply Hnext in E'. subst. now rewrite string_app_assoc. }
  induction s0 as [|c s0 IHs]; intros taken m caps rest; simpl.
  - apply Hstop.
  - destruct (cls c); [|apply Hstop].
    destruct greedy.
    + destruct (runRep cls atLeastOne true capture next (snoc taken c) s0)
        as [r|] eqn:Er.
      * intros [= ->]. rewrite <- snoc_app. exact (IHs _ _ _ _ Er).
      * apply Hstop.
    + match goal with
      | |- context [match ?stop with Some _ => _ | None => _ end] =>
          destruct stop as [r|] eqn:Es
      end.
      * intros [= ->]. exact (Hstop _ _ _ _ _ Es).
      * intros Hr. rewrite <- snoc_app. exact (IHs _ _ _ _ Hr).
Qed.

Lemma matchHere_sound (p : pattern) :
  forall s m caps rest, matchHere p s = Some (m, caps, rest) -> s = m +:+ rest.
Proof.
  induction p as [|[text|cls atLeastOne greedy capture] p IH]; intros s m caps rest.
  - simpl. now intros [= <- <- <-].
  - simpl. destruct (stripPrefix text s) as [s'|] eqn:E; [|discriminate].
    destruct (matchHere p s') as [[[m' caps'] rest']|] eqn:E'; [|discriminate].
    intros [= <- <- <-]. apply stripPrefix_sound in E. apply IH in E'.
    subst. now rewrite string_app_assoc.
  - cbn [matchHere]. intros H.
    now apply (runRep_sound _ _ _ _ _ IH) in H.
Qed.

Lemma length_append (a b : string) :
  String.length (a +:+ b) = (String.length a + String.length b)%nat.
Proof.
  induction a as [|c a IH]; [reflexivity|].
  rewrite append_cons. simpl. now rewrite IH.
Qed.

Lemma search_consumes (p : pattern) :
  opensWithText p ->
  forall s m caps rest,
    search p s = Some (m, caps, rest) -> (String.length rest < String.length s)%nat.
Proof.
  intros (c & text & p' & ->).
  remember (Lit (String c text) :: p') as p eqn:Ep.
  induction s as [|x s IH]; intros m caps rest.
  - subst p. simpl. discriminate.
  - change (search p (String x s))
      with (match matchHere p (String x s) with
            | Some r => Some r
            | None => search p s
            end).
    destruct (matchHere p (String x s)) as [[[m0 caps0] rest0]|] eqn:E.
    + intros [= <- <- <-]. pose proof (matchHere_sound _ _ _ _ _ E) as Hs.
      subst p. simpl in E. destruct (Ascii.eqb c x); [|discriminate].
      destruct (stripPrefix text s); [|discriminate].
      destruct (matchHere p' _) as [[[m1 caps1] rest1]|]; [|discriminate].
      inversion E; subst.
      rewrite Hs, append_cons. simpl. rewrite length_append. lia.
    + intros H. apply IH in H. simpl. lia.
Qed.

(** The loop stops for want of a match, not of fuel: any fuel above the
    length of the text gives the matches [execAll] gives. *)
Lemma execLoop_fuel_enough (p : pattern) :
  opensWithText p ->
  forall fuel s, (String.length s < fuel)%nat -> execLoop fuel p s = execAll p s.
Proof.
  intros Hp.
  assert (forall f1 f2 s, (String.length s < f1)%nat -> (String.length s < f2)%nat ->
                          execLoop f1 p s = execLoop f2 p s) as H.
  { induction f1 as [|f1 IH]; intros f2 s H1 H2; [lia|].
    destruct f2 as [|f2]; [lia|]. simpl.
    destruct (search p s) as [[[m caps] rest]|] eqn:E; [|reflexivity].
    apply (search_consumes p Hp) in E. f_equal. apply IH; lia. }
  intros fuel s Hf. unfold execAll. apply H; lia.
Qed.

Lemma patterns_open_with_text :
  opensWithText areaRegex /\ forall type, opensWithText (deviceRegex type).
Proof.
  split; [|intros type]; eexists _, _, _; reflexivity.
Qed.

(* ===================================================================== *)
(** * Further properties of the code                                     *)
(* ===================================================================== *)

Import Util.

(** ** [hashString] *)

Lemma toInt32_range (z : Z) : - 2 ^ 31 <= toInt32 z < 2 ^ 31.
Proof.
  unfold toInt32. pose proof (Z.mod_pos_bound (z + 2 ^ 31) (2 ^ 32)). lia.
Qed.

Lemma toInt32_congruent (z : Z) : toInt32 z mod 2 ^ 32 = z mod 2 ^ 32.
Proof.
  unfold toInt32.
  rewrite Zminus_mod, Zmod_mod, <- Zminus_mod.
  f_equal. lia.
Qed.

Lemma toInt32_of_congruent (a b : Z) :
  a mod 2 ^ 32 = b mod 2 ^ 32 -> toInt32 a = toInt32 b.
Proof.
  intros H. unfold toInt32.
  rewrite (Zplus_mod a), (Zplus_mod b), H. reflexivity.
Qed.

Lemma toInt32_id (z : Z) : - 2 ^ 31 <= z < 2 ^ 31 -> toInt32 z = z.
Proof. intros H. unfold toInt32. rewrite Z.mod_small; lia. Qed.

Lemma hashLoop_polynomial (str : string) :
  forall hash acc,
    - 2 ^ 31 <= hash < 2 ^ 31 -> hash mod 2 ^ 32 = acc mod 2 ^ 32 ->
    hashLoop hash str = toInt32 (polynomial31 acc str).
Proof.
  induction str as [|c rest IH]; intros hash acc Hr Hc; simpl.
  - rewrite <- (toInt32_id hash Hr). now apply toInt32_of_congruent.
  - apply IH; [apply toInt32_range|].
    rewrite toInt32_congruent.
    rewrite Zplus_mod, Zminus_mod, toInt32_congruent, <- Zminus_mod, <- Zplus_mod.
    replace (hash * 2 ^ 5 - hash) with (31 * hash) by lia.
    rewrite (Zplus_mod (31 * hash)), (Zplus_mod (31 * acc)).
    rewrite (Zmult_mod 31 hash), (Zmult_mod 31 acc), Hc. reflexivity.
Qed.

(** X1: the number [hashString] prints is a signed 32-bit integer, and it is
    the polynomial of base 31 over the code units of the string, wrapped to
    32 bits once: the wrap-around inside the loop loses nothing. *)
Theorem hashString_is_wrapped_polynomial (str : string) :
  - 2 ^ 31 <= hashLoop 0 str < 2 ^ 31 /\
  hashLoop 0 str = toInt32 (polynomial31 0 str) /\
  hashString str = number_to_string (int (toInt32 (polynomial31 0 str))).
Proof.
  assert (hashLoop 0 str = toInt32 (polynomial31 0 str)) as E
    by (apply hashLoop_polynomial; [lia|reflexivity]).
  split; [rewrite E; apply toInt32_range|]. split; [exact E|].
  unfold hashString. now rewrite E.
Qed.

Example hashString_samples :
  map hashString [""; "a"; "Kitchen"; "Thermostat"; "default_area"]
  = ["0"; "97"; "959541124"; "-1365917577"; "-650808373"].
Proof. vm_compute. reflexivity. Qed.

(** ** Testing a whole string against a pattern *)

Lemma append_empty_inv (s1 s2 : string) : s1 +:+ s2 = "" -> s1 = "" /\ s2 = "".
Proof.
  destruct s1 as [|c s1]; [intros H; split; [reflexivity|exact H]|].
  rewrite append_cons. discriminate.
Qed.

Lemma append_cons_inv (s1 s2 : string) (c : ascii) (s : string) :
  s1 +:+ s2 = String c s ->
  (s1 = "" /\ s2 = String c s) \/ exists s1', s1 = String c s1' /\ s = s1' +:+ s2.
Proof.
  destruct s1 as [|x s1]; [intros H; left; split; [reflexivity|exact H]|].
  rewrite append_cons. intros [= -> <-]. right. eexists. split; reflexivity.
Qed.

Lemma nullable_Lang (r : Re.re) : Re.nullable r = true <-> Re.Lang r "".
Proof.
  split.
  - induction r; simpl; try discriminate; intros H.
    + constructor.
    + apply andb_prop in H as [H1 H2].
      change "" with ("" +:+ ""). constructor; auto.
    + apply orb_prop in H as [H|H]; [apply Re.LangAltL|apply Re.LangAltR]; auto.
    + constructor.
  - intros H. remember "" as s eqn:Es.
    induction H; simpl; try reflexivity; try discriminate.
    + apply append_empty_inv in Es as [-> ->].
      rewrite IHLang1, IHLang2; reflexivity.
    + rewrite IHLang; [reflexivity|exact Es].
    + rewrite IHLang; [apply orb_true_r|exact Es].
Qed.

Lemma deriv_Lang (c : ascii) (r : Re.re) :
  forall s, Re.Lang (Re.deriv c r) s <-> Re.Lang r (String c s).
Proof.
  intros s. split.
  - revert s. induction r; simpl; intros s H.
    + inversion H.
    + inversion H.
    + destruct (cls c) eqn:E; inversion H; subst. now constructor.
    + assert (forall t, Re.Lang (Re.Seq (Re.deriv c r1) r2) t ->
                        Re.Lang (Re.Seq r1 r2) (String c t)) as Hseq.
      { intros t Ht. inversion Ht; subst.
        rewrite <- append_cons. constructor; auto. }
      destruct (Re.nullable r1) eqn:En; [|now apply Hseq].
      inversion H; subst; [now apply Hseq|].
      change (String c s) with ("" +:+ String c s).
      constructor; [now apply nullable_Lang|auto].
    + inversion H; subst; [apply Re.LangAltL|apply Re.LangAltR]; auto.
    + inversion H; subst. rewrite <- append_cons. constructor; auto.
  - intros H. remember (String c s) as t eqn:Et. revert s Et.
    induction H; intros u Et; simpl; try discriminate.
    + injection Et as -> <-. rewrite H. constructor.
    + apply append_cons_inv in Et as [[-> ->]|(s1' & -> & ->)].
      * rewrite (proj2 (nullable_Lang r1) H). apply Re.LangAltR. now apply IHLang2.
      * destruct (Re.nullable r1); [apply Re.LangAltL|];
          (constructor; [now apply IHLang1|exact H0]).
    + apply Re.LangAltL. now apply IHLang.
    + apply Re.LangAltR. now apply IHLang.
    + apply append_cons_inv in Et as [[-> ->]|(s1' & -> & ->)].
      * now apply IHLang2.
      * constructor; [now apply IHLang1|exact H0].
Qed.

(** The test by derivatives answers exactly for the strings the pattern
    matches as a whole. *)
Lemma test_Lang (s : string) : forall r, Re.test r s = true <-> Re.Lang r s.
Proof.
  induction s as [|c s IH]; intros r; simpl.
  - apply nullable_Lang.
  - rewrite IH. apply deriv_Lang.
Qed.

(** ** The address the configuration accepts *)

Lemma Lang_Seq_intro r1 r2 s1 s2 s :
  Re.Lang r1 s1 -> Re.Lang r2 s2 -> s = s1 +:+ s2 -> Re.Lang (Re.Seq r1 r2) s.
Proof. intros H1 H2 ->. now constructor. Qed.

Lemma Lang_Range_intro (lo hi c : ascii) :
  (nat_of_ascii lo <= nat_of_ascii c <= nat_of_ascii hi)%nat ->
  Re.Lang (Re.Range lo hi) (String c "").
Proof.
  intros [H1 H2]. unfold Re.Range. constructor.
  apply andb_true_intro. split; now apply Nat.leb_le.
Qed.

Lemma Lang_Range_inv (lo hi : ascii) (s : string) :
  Re.Lang (Re.Range lo hi) s ->
  exists c, s = String c "" /\ (nat_of_ascii lo <= nat_of_ascii c <= nat_of_ascii hi)%nat.
Proof.
  unfold Re.Range. intros H. inversion H as [|cls c Hc| | | | |]; subst.
  apply andb_prop in Hc as [H1 H2]. apply Nat.leb_le in H1, H2.
  exists c. split; [reflexivity|lia].
Qed.

Lemma Lang_Chr_intro (x : ascii) : Re.Lang (Re.Chr x) (String x "").
Proof. unfold Re.Chr. constructor. apply Ascii.eqb_refl. Qed.

Lemma Lang_Chr_inv (x : ascii) (s : string) : Re.Lang (Re.Chr x) s -> s = String x "".
Proof.
  unfold Re.Chr. intros H. inversion H as [|cls c Hc| | | | |]; subst.
  apply Ascii.eqb_eq in Hc. now subst.
Qed.

Lemma Lang_Seq_inv r1 r2 s :
  Re.Lang (Re.Seq r1 r2) s -> exists s1 s2, s = s1 +:+ s2 /\ Re.Lang r1 s1 /\ Re.Lang r2 s2.
Proof. intros H. inversion H; subst. eauto. Qed.

Lemma Lang_Alt_inv r1 r2 s : Re.Lang (Re.Alt r1 r2) s -> Re.Lang r1 s \/ Re.Lang r2 s.
Proof. intros H. inversion H; subst; auto. Qed.

Lemma Lang_Opt_inv r s : Re.Lang (Re.Opt r) s -> Re.Lang r s \/ s = "".
Proof.
  unfold Re.Opt. intros H. apply Lang_Alt_inv in H as [H|H]; [now left|].
  inversion H. now right.
Qed.

Lemma ascii_of_code (a : ascii) (n : nat) : nat_of_ascii a = n -> a = ascii_of_nat n.
Proof. intros <-. symmetry. apply ascii_nat_embedding. Qed.

Lemma octetRegex_isOctet (o : string) : Re.Lang Platform.octetRegex o <-> Platform.isOctet o.
Proof.
  unfold Platform.octetRegex. split.
  - intros H. apply Lang_Alt_inv in H as [H|H]; [|apply Lang_Alt_inv in H as [H|H]].
    + apply Lang_Seq_inv in H as (s1 & s2 & -> & H1 & H).
      apply Lang_Seq_inv in H as (s3 & s4 & -> & H2 & H3).
      apply Lang_Chr_inv in H1, H2. apply Lang_Range_inv in H3 as (c & -> & Hc). subst.
      change (nat_of_ascii "0") with 48%nat in Hc. change (nat_of_ascii "5") with 53%nat in Hc.
      apply Platform.Octet3; unfold Platform.isDigit, Platform.digitOf;
        change (nat_of_ascii "2") with 50%nat; change (nat_of_ascii "5") with 53%nat; lia.
    + apply Lang_Seq_inv in H as (s1 & s2 & -> & H1 & H).
      apply Lang_Seq_inv in H as (s3 & s4 & -> & H2 & H3).
      apply Lang_Chr_inv in H1. apply Lang_Range_inv in H2 as (b & -> & Hb).
      apply Lang_Range_inv in H3 as (c & -> & Hc). subst.
      change (nat_of_ascii "0") with 48%nat in *. change (nat_of_ascii "4") with 52%nat in *.
      change (nat_of_ascii "9") with 57%nat in *.
      apply Platform.Octet3; unfold Platform.isDigit, Platform.digitOf;
        change (nat_of_ascii "2") with 50%nat; lia.
    + apply Lang_Seq_inv in H as (s1 & s2 & -> & H1 & H).
      apply Lang_Seq_inv in H as (s3 & s4 & -> & H2 & H3).
      apply Lang_Range_inv in H2 as (b & -> & Hb).
      change (nat_of_ascii "0") with 48%nat in *. change (nat_of_ascii "9") with 57%nat in *.
      assert (s1 = "" \/ exists a, s1 = String a "" /\ (48 <= nat_of_ascii a <= 49)%nat) as Hpre.
      { apply Lang_Opt_inv in H1 as [H1| ->]; [|now left]. right.
        apply Lang_Alt_inv in H1 as [H1|H1]; apply Lang_Chr_inv in H1; subst;
          eexists; (split; [reflexivity|]).
        - change (nat_of_ascii "0") with 48%nat. lia.
        - change (nat_of_ascii "1") with 49%nat. lia. }
      assert (s4 = "" \/ exists c, s4 = String c "" /\ (48 <= nat_of_ascii c <= 57)%nat) as Hpost.
      { apply Lang_Opt_inv in H3 as [H3| ->]; [|now left]. right.
        apply Lang_Range_inv in H3 as (c & -> & Hc).
        change (nat_of_ascii "0") with 48%nat in *. change (nat_of_ascii "9") with 57%nat in *.
        eauto. }
      destruct Hpre as [->|(a & -> & Ha)], Hpost as [->|(c & -> & Hc)];
        cbv [String.append].
      * now apply Platform.Octet1.
      * now apply Platform.Octet2.
      * apply Platform.Octet2; unfold Platform.isDigit; lia.
      * apply Platform.Octet3; unfold Platform.isDigit, Platform.digitOf; lia.
  - intros H. destruct H as [a Ha|a b Ha Hb|a b c Ha Hb Hc Hv];
      unfold Platform.isDigit, Platform.digitOf in *.
    + apply Re.LangAltR, Re.LangAltR.
      apply (Lang_Seq_intro _ _ "" (String a "")); [apply Re.LangAltR; constructor| |reflexivity].
      apply (Lang_Seq_intro _ _ (String a "") ""); [|apply Re.LangAltR; constructor|reflexivity].
      now apply Lang_Range_intro.
    + apply Re.LangAltR, Re.LangAltR.
      apply (Lang_Seq_intro _ _ "" (String a (String b "")));
        [apply Re.LangAltR; constructor| |reflexivity].
      apply (Lang_Seq_intro _ _ (String a "") (String b "")); [| |reflexivity].
      * now apply Lang_Range_intro.
      * apply Re.LangAltL. now apply Lang_Range_intro.
    + assert (nat_of_ascii a = 48 \/ nat_of_ascii a = 49 \/ nat_of_ascii a = 50)%nat
        as [Ea|[Ea|Ea]] by lia.
      * apply Re.LangAltR, Re.LangAltR. apply ascii_of_code in Ea. subst a.
        apply (Lang_Seq_intro _ _ "0" (String b (String c "")));
          [apply Re.LangAltL, Re.LangAltL, Lang_Chr_intro| |reflexivity].
        apply (Lang_Seq_intro _ _ (String b "") (String c "")); [| |reflexivity].
        -- now apply Lang_Range_intro.
        -- apply Re.LangAltL. now apply Lang_Range_intro.
      * apply Re.LangAltR, Re.LangAltR. apply ascii_of_code in Ea. subst a.
        apply (Lang_Seq_intro _ _ "1" (String b (String c "")));
          [apply Re.LangAltL, Re.LangAltR, Lang_Chr_intro| |reflexivity].
        apply (Lang_Seq_intro _ _ (String b "") (String c "")); [| |reflexivity].
        -- now apply Lang_Range_intro.
        -- apply Re.LangAltL. now apply Lang_Range_intro.
      * rewrite Ea in Hv.
        assert (nat_of_ascii b <= 52 \/ nat_of_ascii b = 53)%nat as [Eb|Eb] by lia.
        -- apply Re.LangAltR, Re.LangAltL. apply ascii_of_code in Ea. subst a.
           apply (Lang_Seq_intro _ _ "2" (String b (String c "")));
             [apply Lang_Chr_intro| |reflexivity].
           apply (Lang_Seq_intro _ _ (String b "") (String c "")); [| |reflexivity].
           ++ apply Lang_Range_intro. change (nat_of_ascii "0") with 48%nat.
              change (nat_of_ascii "4") with 52%nat. lia.
           ++ now apply Lang_Range_intro.
        -- rewrite Eb in Hv. apply Re.LangAltL.
           apply ascii_of_code in Ea, Eb. subst a b.
           apply (Lang_Seq_intro _ _ "2" (String "5" (String c "")));
             [apply Lang_Chr_intro| |reflexivity].
           apply (Lang_Seq_intro _ _ "5" (String c "")); [apply Lang_Chr_intro| |reflexivity].
           apply Lang_Range_intro. change (nat_of_ascii "0") with 48%nat.
           change (nat_of_ascii "5") with 53%nat. lia.
Qed.

(** X2: the address test of the validator accepts exactly the dotted quads:
    four groups of one to three decimal digits, a group of three digits
    being at most 255, with single dots between them and nothing else. *)
Theorem ipRegex_accepts_dotted_quads (s : string) :
  Re.test Platform.ipRegex s = true <-> Platform.dottedQuad s.
Proof.
  rewrite test_Lang. unfold Platform.ipRegex, Platform.octetDot, Platform.dottedQuad. split.
  - intros H.
    apply Lang_Seq_inv in H as (s123 & o4 & -> & H & H4).
    apply Lang_Seq_inv in H as (s1 & s23 & -> & H1 & H).
    apply Lang_Seq_inv in H as (s2 & s3 & -> & H2 & H3).
    apply Lang_Seq_inv in H1 as (o1 & d1 & -> & H1 & D1).
    apply Lang_Seq_inv in H2 as (o2 & d2 & -> & H2 & D2).
    apply Lang_Seq_inv in H3 as (o3 & d3 & -> & H3 & D3).
    apply Lang_Chr_inv in D1, D2, D3. subst.
    apply octetRegex_isOctet in H1, H2, H3, H4.
    exists o1, o2, o3, o4. repeat (split; [assumption|]).
    now rewrite !string_app_assoc.
  - intros (o1 & o2 & o3 & o4 & H1 & H2 & H3 & H4 & ->).
    apply octetRegex_isOctet in H1, H2, H3, H4.
    apply (Lang_Seq_intro _ _ ((o1 +:+ ".") +:+ ((o2 +:+ ".") +:+ (o3 +:+ "."))) o4);
      [|exact H4|now rewrite !string_app_assoc].
    repeat (constructor; try assumption); apply Lang_Chr_intro.
Qed.

Example ipRegex_samples :
  map (Re.test Platform.ipRegex)
      ["192.168.1.100"; "0.0.0.0"; "255.255.255.255"; "256.1.1.1"; "1.2.3"; "1.2.3.4.5";
       "01.002.0.9"; "1.2.3.4 "; "1..2.3"; ""; "1234.1.1.1"; "a.b.c.d"]
  = [true; true; true; false; false; false; true; false; false; false; false; false].
Proof. vm_compute. reflexivity. Qed.

(** ** What a validated configuration is *)




Lemma isNaN_false (x : jsnum) : isNaN x = false -> forall s, x = parseInt s -> exists n, x = int n.
Proof.
  intros H s ->. destruct (parseInt_cases s) as [E|[n E]]; rewrite E in *; [discriminate|eauto].
Qed.


(** ** What every discovered device record is *)

Lemma runRep_captures cls greedy (next : string -> option matched) :
  forall s0 taken m caps rest,
    runRep cls true greedy true next taken s0 = Some (m, caps, rest) ->
    exists t caps', caps = t :: caps' /\ t <> "".
Proof.
  assert (forall taken s0 m caps rest,
            (if (true && String.eqb taken "")%bool then None
             else match next s0 with
                  | Some (m, caps, rest) => Some (taken +:+ m, taken :: caps, rest)
                  | None => None
                  end) = Some (m, caps, rest) ->
            exists t caps', caps = t :: caps' /\ t <> "") as Hstop.
  { intros taken s0 m caps rest. simpl.
    destruct (String.eqb_spec taken "") as [|Hne]; [discriminate|].
    destruct (next s0) as [[[m' caps'] rest']|]; [|discriminate].
    intros [= <- <- <-]. eauto. }
  induction s0 as [|c s0 IH]; intros taken m caps rest; simpl runRep; intros H.
  - exact (Hstop _ _ _ _ _ H).
  - destruct (cls c).
    + destruct greedy.
      * destruct (runRep cls true true true next (snoc taken c) s0) as [r|] eqn:Er.
        -- injection H as ->. exact (IH _ _ _ _ Er).
        -- exact (Hstop _ _ _ _ _ H).
      * match type of H with
        | match ?stop with Some _ => _ | None => _ end = _ => destruct stop as [r|] eqn:Es
        end.
        -- injection H as ->. exact (Hstop _ _ _ _ _ Es).
        -- exact (IH _ _ _ _ H).
    + exact (Hstop _ _ _ _ _ H).
Qed.

Lemma search_is_a_match (p : pattern) (s : string) (r : matched) :
  search p s = Some r -> exists s', matchHere p s' = Some r.
Proof.
  induction s as [|c s IH]; simpl.
  - destruct (matchHere p "") eqn:E; [intros [= <-]; eauto|discriminate].
  - destruct (matchHere p (String c s)) eqn:E; [intros [= <-]; eauto|exact IH].
Qed.

Lemma firstCapture_nonempty (p : pattern) (s v : string) :
  capturesOneOrMore p -> firstCapture p s = Some v -> v <> "".
Proof.
  intros (before & cls & greedy & after & ->). unfold firstCapture.
  destruct (search _ s) as [[[m caps] rest]|] eqn:E; [|discriminate].
  apply search_is_a_match in E as (s' & E).
  cbn [matchHere] in E.
  destruct (stripPrefix before s') as [s1|]; [|discriminate].
  match type of E with
  | match ?run with Some _ => _ | None => _ end = _ => destruct run as [[[m1 caps1] rest1]|] eqn:Er
  end; [|discriminate].
  apply runRep_captures in Er as (t & caps' & -> & Hne).
  injection E as _ <- _. intros [= <-]. exact Hne.
Qed.

Lemma source_patterns_capture_one_or_more :
  capturesOneOrMore vidAttribute /\ forall tag, capturesOneOrMore (element tag).
Proof. split; [|intros tag]; eexists _, _, _, _; reflexivity. Qed.

Lemma directVid_nonempty (attributes whole vid : string) :
  directVid attributes whole = Some vid -> vid <> "".
Proof.
  destruct source_patterns_capture_one_or_more as [Hattr Hel].
  unfold directVid.
  destruct (firstCapture vidAttribute attributes) eqn:E1.
  { intros [= <-]. exact (firstCapture_nonempty _ _ _ Hattr E1). }
  destruct (firstCapture (element "VID") whole) eqn:E2.
  { intros [= <-]. exact (firstCapture_nonempty _ _ _ (Hel "VID") E2). }
  intros E3. exact (firstCapture_nonempty _ _ _ (Hel "Number") E3).
Qed.

Lemma js_or_truthy (a b : jsval) : truthy b = true -> truthy (js_or a b) = true.
Proof. intros H. unfold js_or. destruct (truthy a) eqn:E; assumption. Qed.

Lemma resolveArea_truthy (a : AreasRecord) (key : string) : truthy (resolveArea a key) = true.
Proof. unfold resolveArea. now apply js_or_truthy. Qed.

Lemma deviceOfMatch_wellFormed cfg a type m d :
  In type validTypes -> deviceOfMatch cfg a type m = Some d -> wellFormed d.
Proof.
  intros Htype. unfold deviceOfMatch.
  destruct (directVid _ _) as [vid|] eqn:Ev; [|discriminate].
  destruct (String.eqb_spec (default "" (m.2 !! 1%nat)) "") as [|Hname]; [discriminate|].
  destruct (vidExcluded _ _ vid); [discriminate|].
  intros [= <-]. unfold wellFormed. simpl.
  split; [eapply directVid_nonempty; eauto|]. split; [exact Htype|].
  split; [|apply resolveArea_truthy].
  apply negb_true_iff. now apply String.eqb_neq.
Qed.

Lemma findDeviceData_type (types : list string) (obj : jsval) deviceType deviceData :
  findDeviceData types obj = Some (deviceType, deviceData) -> In deviceType types.
Proof.
  induction types as [|type types IH]; simpl; [discriminate|].
  destruct (truthy (field obj type)); [intros [= <- _]; now left|].
  intros H. right. auto.
Qed.

Lemma Forall_flat_map_in {A B} (P : B -> Prop) (f : A -> list B) (l : list A) :
  (forall x, In x l -> Forall P (f x)) -> Forall P (flat_map f l).
Proof.
  induction l as [|x l IH]; simpl; intros H; [constructor|].
  apply Forall_app. split; [apply H; now left|apply IH; intros y Hy; apply H; now right].
Qed.

Lemma directDevices_wellFormed cfg a fileContent :
  Forall wellFormed (directDevices cfg a fileContent).
Proof.
  unfold directDevices. apply Forall_flat_map_in. intros type Htype.
  apply Forall_forall. intros d Hd.
  apply list_elem_of_omap in Hd as (m & _ & Hm).
  eapply deviceOfMatch_wellFormed; eauto.
Qed.

Lemma wellFormed_direct cfg fileContent :
  preserves devicesWellFormed (modifyStore (extractDevicesDirectly cfg fileContent)).
Proof.
  intros st H. unfold devicesWellFormed in *. simpl.
  apply Forall_app. split; [exact H|apply directDevices_wellFormed].
Qed.

Lemma wellFormed_modifyAreas f : preserves devicesWellFormed (modifyAreas f).
Proof. intros st H. exact H. Qed.

Lemma wellFormed_push d : wellFormed d -> preserves devicesWellFormed (push d).
Proof.
  intros Hd st H. unfold devicesWellFormed in *. simpl.
  apply Forall_app. split; [exact H|]. constructor; [exact Hd|constructor].
Qed.

Ltac wf_step :=
  first
    [ apply preserves_ret
    | apply preserves_lift
    | apply preserves_readAreas
    | apply wellFormed_modifyAreas
    | apply wellFormed_direct
    | apply preserves_forEach; intros ?
    | apply preserves_bind; [|intros ?]
    | apply preserves_tryCatch ].

Lemma wellFormed_deviceBody cfg obj : preserves devicesWellFormed (deviceBody cfg obj).
Proof.
  unfold deviceBody. wf_step; [wf_step|].
  destruct (findDeviceData validTypes obj) as [[deviceType deviceData]|] eqn:Ef; [|wf_step].
  wf_step; [wf_step|].
  destruct (String.eqb_spec a0 "") as [|Hvid]; [wf_step|].
  destruct (vidExcluded _ _ _); [wf_step|].
  wf_step; [wf_step|]. wf_step; [wf_step|].
  apply wellFormed_push. unfold wellFormed. simpl.
  split; [exact Hvid|]. split; [exact (findDeviceData_type _ _ _ _ Ef)|].
  split; [now apply js_or_truthy|apply resolveArea_truthy].
Qed.

Lemma wellFormed_structuredPass cfg fileContent parsed :
  preserves devicesWellFormed (structuredPass cfg fileContent parsed).
Proof.
  unfold structuredPass, whenNoAreas, writeArea. wf_step; [wf_step|].
  destruct (_ || _)%bool; [wf_step|].
  wf_step.
  { wf_step. unfold explicitAreaBody, writeArea. wf_step; [wf_step|].
    destruct (_ && _)%bool; [|wf_step]. destruct (truthy _); repeat wf_step. }
  wf_step.
  { wf_step. unfold standaloneAreaBody, writeArea. wf_step; [wf_step|].
    destruct (_ && _)%bool; [|wf_step]. destruct (truthy _); [|wf_step].
    wf_step; [wf_step|]. wf_step; [wf_step|]. destruct (truthy _); wf_step. }
  wf_step.
  { wf_step; [wf_step|]. destruct (areasIsEmpty _); [|wf_step].
    wf_step. unfold altAreaBody, writeArea. wf_step; [wf_step|].
    destruct (_ || _)%bool; [|wf_step]. destruct (truthy _); repeat wf_step. }
  wf_step.
  { wf_step; [wf_step|]. destruct (areasIsEmpty _); wf_step. }
  wf_step. apply wellFormed_deviceBody.
Qed.

Lemma wellFormed_processBackupFile xml_parse cfg raw :
  preserves devicesWellFormed (processBackupFile xml_parse cfg raw).
Proof.
  unfold processBackupFile. wf_step; [|wf_step].
  wf_step; [wf_step|].
  destruct (objectsSection _); [|wf_step].
  destruct (xml_parse _); [apply wellFormed_structuredPass|wf_step].
Qed.

Lemma wellFormed_isValidDevice (d : VantageDevice) :
  wellFormed d -> isValidDevice (deviceObject d) = true.
Proof.
  intros (Hvid & Htype & _ & _).
  assert (ObjectType d <> "") as Hne.
  { intros E. rewrite E in Htype. simpl in Htype.
    repeat destruct Htype as [Htype|Htype]; try discriminate; contradiction. }
  apply existsb_eqb_In in Htype.
  unfold isValidDevice, deviceObject. simpl. simpl in Htype.
  apply String.eqb_neq in Hne, Hvid. rewrite Hne, Hvid, Htype. reflexivity.
Qed.

Section PayloadInvariant.
Context (Q : VantageDevice -> Prop).
Context (xml_parse : string -> result jsval) (base64_decode : jsval -> result string).
Context (cfg : Config).
Context (Hparser : forall raw,
           preserves (fun st => Forall Q (devices st)) (processBackupFile xml_parse cfg raw)).

Lemma step_payloads s c :
  Forall Q (devices (store s)) /\ Forall (Forall Q) (discoveryComplete s) ->
  Forall Q (devices (store (step xml_parse base64_decode cfg s c))) /\
  Forall (Forall Q) (discoveryComplete (step xml_parse base64_decode cfg s c)).
Proof using Hparser.
  intros [Hst Hem]. destruct c as [| |chunk|message|]; simpl.
  - unfold onTimeout. destruct (timeoutArmed s); [|now split].
    split; [exact Hst|]. simpl. apply Forall_app. split; [exact Hem|].
    repeat constructor.
  - unfold onConnect. destruct (_ && _)%bool; split; assumption.
  - unfold onData. cbv zeta.
    destruct (_ || _)%bool; [|split; assumption].
    destruct (rbind _ _) as [[parsed login]|]; [|split; assumption].
    destruct (truthy _); [split; assumption|].
    destruct (truthy _); [|split; assumption].
    destruct (base64_decode _) as [fileContent|]; [|split; assumption].
    pose proof (Hparser fileContent _ Hst) as Hp. simpl in Hp.
    destruct (processBackupFile _ _ _ _) as [[[]|] st]; split; assumption.
  - split; [exact Hst|]. simpl. apply Forall_app. split; [exact Hem|].
    repeat constructor.
  - split; [exact Hst|]. simpl. apply Forall_app. split; [exact Hem|].
    constructor; [exact Hst|constructor].
Qed.

Lemma run_payloads trace :
  Forall (Forall Q) (discoveryComplete (run xml_parse base64_decode cfg trace)).
Proof using Hparser.
  assert (Forall Q (devices (store (run xml_parse base64_decode cfg trace))) /\
          Forall (Forall Q) (discoveryComplete (run xml_parse base64_decode cfg trace)))
    as [_ H]; [|exact H].
  induction trace as [|c trace IH] using rev_ind.
  - split; constructor.
  - rewrite run_snoc. now apply step_payloads.
Qed.

End PayloadInvariant.

Lemma run_wellFormed xml_parse base64_decode cfg trace payload d :
  In payload (discoveryComplete (run xml_parse base64_decode cfg trace)) ->
  In d payload -> wellFormed d.
Proof.
  intros Hp Hd.
  pose proof (run_payloads wellFormed xml_parse base64_decode cfg
                (wellFormed_processBackupFile xml_parse cfg) trace) as H.
  pose proof (proj1 (List.Forall_forall _ _) H payload Hp) as H'.
  exact (proj1 (List.Forall_forall _ _) H' d Hd).
Qed.

(** X4: every device record of every list a [discoveryComplete] event
    carries has a VID that is not empty, one of the five supported types, a
    truthy name and a truthy area, and passes [isValidDevice], the check of
    the class that the extraction itself never calls. *)
Theorem discovered_devices_are_well_formed
    (xml_parse : string -> result jsval) (base64_decode : jsval -> result string)
    (cfg : Config) (trace : list Callback) (payload : list VantageDevice)
    (d : VantageDevice) :
  In payload (discoveryComplete (run xml_parse base64_decode cfg trace)) ->
  In d payload ->
  wellFormed d /\ isValidDevice (deviceObject d) = true.
Proof.
  intros Hp Hd.
  pose proof (run_wellFormed _ _ _ _ _ _ Hp Hd) as Hwf.
  split; [exact Hwf|now apply wellFormed_isValidDevice].
Qed.

Lemma discovered_devices_are_well_formed_witness :
  wellFormed (lamp "Kitchen") /\ isValidDevice (deviceObject (lamp "Kitchen")) = true.
Proof.
  apply (discovered_devices_are_well_formed
           (parserGiving sampleTree) (decoderGiving sampleBackup) filteringConfig
           (backupRetrieved ["<IBackup><GetFile><return>"; "</return></GetFile></IBackup>"])
           [lamp "Kitchen"] (lamp "Kitchen")).
  - vm_compute. left. reflexivity.
  - left. reflexivity.
Defined.

(** ** The second filter, of the platform *)

Lemma shouldSkipDevice_of_admitted (config : Platform.PlatformConfig) (vid : string) :
  vid <> "" ->
  vidExcluded (omitList (Platform.infusionConfig config))
              (rangeList (Platform.infusionConfig config)) vid = false ->
  Platform.shouldSkipDevice config vid = false.
Proof.
  intros Hne H. unfold vidExcluded in H. apply orb_false_elim in H as [Hom Hr].
  unfold Platform.shouldSkipDevice, omitList, rangeList, Platform.infusionConfig in *.
  simpl in Hom, Hr.
  replace (existsb (String.eqb vid)
             (map trim (split "," (Platform.orEmpty (Platform.omit config))))) with false.
  2:{ destruct (String.eqb_spec (Platform.orEmpty (Platform.omit config)) "") as [E|E].
      - rewrite E. change (map trim (split "," "")) with [""]. simpl.
        apply String.eqb_neq in Hne. now rewrite Hne.
      - now rewrite Hom. }
  destruct (isNaN (parseInt vid)); [reflexivity|]. simpl in *.
  fold (Platform.parsedRange (Platform.orEmpty (Platform.range config))) in Hr.
  destruct (String.eqb_spec (Platform.orEmpty (Platform.range config)) "") as [E|E].
  - rewrite E. reflexivity.
  - destruct (Nat.eqb _ 2); [|reflexivity]. now rewrite Hr.
Qed.

(** X5: [shouldSkipDevice], the filter the platform applies to the devices
    of a [discoveryComplete] event, never skips one: the client configured
    by the platform has already left out every device it would skip. *)
Theorem platform_filter_skips_no_discovered_device
    (xml_parse : string -> result jsval) (base64_decode : jsval -> result string)
    (config : Platform.PlatformConfig) (trace : list Callback)
    (payload : list VantageDevice) (d : VantageDevice) :
  In payload
     (discoveryComplete (run xml_parse base64_decode (Platform.infusionConfig config) trace)) ->
  In d payload ->
  Platform.shouldSkipDevice config (VID d) = false.
Proof.
  intros Hp Hd.
  destruct (run_wellFormed _ _ _ _ _ _ Hp Hd) as (Hvid & _).
  apply shouldSkipDevice_of_admitted; [exact Hvid|].
  destruct (run_payloadsAdmitted xml_parse base64_decode
              (Platform.infusionConfig config) trace) as [_ H].
  pose proof (proj1 (List.Forall_forall _ _) H payload Hp) as H'.
  exact (proj1 (List.Forall_forall _ _) H' d Hd).
Qed.

Lemma platform_filter_skips_no_discovered_device_witness :
  Platform.shouldSkipDevice Platform.sampleConfig "55" = false /\
  Platform.shouldSkipDevice Platform.sampleConfig "56" = true.
Proof.
  split; [|reflexivity].
  apply (platform_filter_skips_no_discovered_device
           (parserGiving sampleTree) (decoderGiving sampleBackup) Platform.sampleConfig
           (backupRetrieved ["<IBackup><GetFile><return>"; "</return></GetFile></IBackup>"])
           [lamp "Kitchen"] (lamp "Kitchen")).
  - vm_compute. left. reflexivity.
  - left. reflexivity.
Defined.

(** ** The record of areas *)

Lemma areasSet_nonEmpty (a : AreasRecord) (k : string) (v : jsval) :
  k <> "__proto__" -> areasIsEmpty (areasSet a k v) = false.
Proof.
  intros Hk. unfold areasIsEmpty, areasSet.
  apply String.eqb_neq in Hk. rewrite Hk. simpl.
  apply Nat.eqb_neq. intros E. apply map_size_empty_iff in E.
  now apply insert_non_empty in E.
Qed.

Lemma areasSet_keeps_nonEmpty (a : AreasRecord) (k : string) (v : jsval) :
  areasIsEmpty a = false -> areasIsEmpty (areasSet a k v) = false.
Proof.
  intros H. destruct (String.eqb_spec k "__proto__") as [->|Hk].
  - exact H.
  - now apply areasSet_nonEmpty.
Qed.

Lemma extractAreasDirectly_nonEmpty (fileContent : string) (a : AreasRecord) :
  areasIsEmpty (extractAreasDirectly fileContent a) = false.
Proof.
  unfold extractAreasDirectly.
  destruct (areasIsEmpty (fold_left addAreaMatch _ a)) eqn:E; [|exact E].
  now apply areasSet_nonEmpty.
Qed.

Lemma areasGet_proto_truthy (a : AreasRecord) :
  protoIsObject a -> own a !! "__proto__" = None -> truthy (areasGet a "__proto__") = true.
Proof.
  intros Hp Hown. unfold areasGet. rewrite Hown. simpl.
  destruct (protoSlot a) as [p|] eqn:E; [now apply Hp|reflexivity].
Qed.

Lemma keeps_refl (a : AreasRecord) : keeps a a.
Proof. repeat split; auto. Qed.

Lemma keeps_trans (a b c : AreasRecord) : keeps a b -> keeps b c -> keeps a c.
Proof.
  intros (P1 & N1 & K1) (P2 & N2 & K2). repeat split.
  - congruence.
  - auto.
  - intros k v Hk Hv. apply K2; auto.
Qed.

Lemma guarded_set_keeps (a : AreasRecord) (k : string) (v : jsval) :
  protoIsObject a -> own a !! "__proto__" = None ->
  truthy (areasGet a k) = false -> keeps a (areasSet a k v).
Proof.
  intros Hp Hown Hget.
  destruct (String.eqb_spec k "__proto__") as [->|Hk].
  { rewrite areasGet_proto_truthy in Hget; [discriminate|assumption|assumption]. }
  unfold areasSet. apply String.eqb_neq in Hk. rewrite Hk. apply String.eqb_neq in Hk.
  repeat split; simpl.
  - intros _. now rewrite lookup_insert_ne.
  - intros k' v' Hk' Hv'. destruct (decide (k = k')) as [<-|Hne].
    + unfold areasGet in Hget. rewrite Hk' in Hget. congruence.
    + now rewrite lookup_insert_ne.
Qed.

Lemma addAreaMatch_keeps (a : AreasRecord) (m : string * list string) :
  protoIsObject a -> own a !! "__proto__" = None -> keeps a (addAreaMatch a m).
Proof.
  intros Hp Hown. unfold addAreaMatch.
  destruct m.2 as [|vid [|name [|? ?]]]; try apply keeps_refl.
  destruct (negb (String.eqb vid "") && negb (truthy (areasGet a vid)))%bool eqn:E;
    [|apply keeps_refl].
  apply andb_prop in E as [_ E]. apply negb_true_iff in E.
  now apply guarded_set_keeps.
Qed.

Lemma fold_addAreaMatch_keeps (ms : list (string * list string)) :
  forall a, protoIsObject a -> own a !! "__proto__" = None ->
            keeps a (fold_left addAreaMatch ms a).
Proof.
  induction ms as [|m ms IH]; intros a Hp Hown; simpl; [apply keeps_refl|].
  pose proof (addAreaMatch_keeps a m Hp Hown) as K.
  apply (keeps_trans _ _ _ K). destruct K as (P & N & _).
  apply IH; [|auto]. unfold protoIsObject in *. now rewrite P.
Qed.

(** X6: [extractAreasDirectly] never leaves the record of areas empty, never
    replaces an area that is already in it (of two areas with one VID the
    first stays), and never touches the prototype of the record, whatever
    identifiers the text holds. *)
Theorem extractAreasDirectly_only_adds (fileContent : string) (a : AreasRecord) :
  protoIsObject a -> own a !! "__proto__" = None ->
  areasIsEmpty (extractAreasDirectly fileContent a) = false /\
  protoSlot (extractAreasDirectly fileContent a) = protoSlot a /\
  forall k v, own a !! k = Some v -> truthy v = true ->
              own (extractAreasDirectly fileContent a) !! k = Some v.
Proof.
  intros Hp Hown. split; [apply extractAreasDirectly_nonEmpty|].
  pose proof (fold_addAreaMatch_keeps (execAll areaRegex fileContent) a Hp Hown)
    as (P & N & K).
  unfold extractAreasDirectly.
  destruct (areasIsEmpty _) eqn:E; [|split; assumption].
  unfold areasSet. simpl. split; [exact P|].
  intros k v Hk Hv. specialize (K k v Hk Hv).
  apply Nat.eqb_eq, map_size_empty_iff in E. rewrite E in K.
  now rewrite lookup_empty in K.
Qed.

Lemma extractAreasDirectly_only_adds_witness :
  own (extractAreasDirectly sampleBackup
         {| own := {["10" := areaObject (JStr "10") (JStr "Hall")]}; protoSlot := None |})
    !! "10" = Some (areaObject (JStr "10") (JStr "Hall")).
Proof.
  apply (extractAreasDirectly_only_adds sampleBackup
           {| own := {["10" := areaObject (JStr "10") (JStr "Hall")]}; protoSlot := None |}).
  - intros p [=].
  - reflexivity.
  - reflexivity.
  - reflexivity.
Defined.

Lemma nonEmpty_modifyAreas_set k v :
  preserves areasNonEmpty (writeArea k v).
Proof. intros st H. unfold areasNonEmpty in *. simpl. now apply areasSet_keeps_nonEmpty. Qed.

Lemma nonEmpty_push d : preserves areasNonEmpty (push d).
Proof. intros st H. exact H. Qed.

Lemma nonEmpty_direct cfg fileContent :
  preserves areasNonEmpty (modifyStore (extractDevicesDirectly cfg fileContent)).
Proof.
  intros st H. unfold areasNonEmpty, extractDevicesDirectly in *. simpl.
  now rewrite H.
Qed.

Ltac ne_step :=
  first
    [ apply preserves_ret
    | apply preserves_lift
    | apply preserves_readAreas
    | apply nonEmpty_modifyAreas_set
    | apply nonEmpty_push
    | apply nonEmpty_direct
    | apply preserves_forEach; intros ?
    | apply preserves_bind; [|intros ?]
    | apply preserves_tryCatch ].

Lemma nonEmpty_explicitAreaBody obj : preserves areasNonEmpty (explicitAreaBody obj).
Proof.
  unfold explicitAreaBody. ne_step; [ne_step|].
  destruct (_ && _)%bool; [|ne_step]. destruct (truthy _); repeat ne_step.
Qed.

Lemma nonEmpty_standaloneAreaBody obj : preserves areasNonEmpty (standaloneAreaBody obj).
Proof.
  unfold standaloneAreaBody. ne_step; [ne_step|].
  destruct (_ && _)%bool; [|ne_step]. destruct (truthy _); [|ne_step].
  ne_step; [ne_step|]. ne_step; [ne_step|]. destruct (truthy _); ne_step.
Qed.

Lemma nonEmpty_deviceBody cfg obj : preserves areasNonEmpty (deviceBody cfg obj).
Proof.
  unfold deviceBody. ne_step; [ne_step|].
  destruct (findDeviceData validTypes obj) as [[deviceType deviceData]|]; [|ne_step].
  ne_step; [ne_step|].
  destruct (String.eqb _ ""); [ne_step|].
  destruct (vidExcluded _ _ _); [ne_step|].
  repeat ne_step.
Qed.

Lemma whenNoAreas_skipped (m : M unit) (st : Store) :
  areasNonEmpty st -> whenNoAreas m st = (Ok tt, st).
Proof. intros H. unfold whenNoAreas, bind, readAreas, ret. now rewrite H. Qed.

Lemma bind_unfold {A B} (m : M A) (k : A -> M B) (st : Store) :
  bind m k st = match m st with
                | (Ok a, st') => k a st'
                | (Throw, st') => (Throw, st')
                end.
Proof. reflexivity. Qed.

Lemma structuredPass_without_fallbacks cfg fileContent parsed st :
  areasNonEmpty st ->
  structuredPass cfg fileContent parsed st
  = structuredPassWithoutFallbacks cfg fileContent parsed st.
Proof.
  intros H. unfold structuredPass, structuredPassWithoutFallbacks.
  rewrite !bind_unfold. unfold lift.
  destruct (getProp parsed "Objects") as [objectsNode|]; [|reflexivity].
  destruct (_ || _)%bool; [reflexivity|]. cbv zeta.
  set (objects := match field objectsNode "Object" with JArr items => items | one => [one] end).
  rewrite !bind_unfold.
  pose proof (preserves_forEach areasNonEmpty objects explicitAreaBody
                nonEmpty_explicitAreaBody st H) as H1.
  destruct (forEach objects explicitAreaBody st) as [[[]|] st1]; [|reflexivity].
  simpl in H1. rewrite !bind_unfold.
  pose proof (preserves_forEach areasNonEmpty objects standaloneAreaBody
                nonEmpty_standaloneAreaBody st1 H1) as H2.
  destruct (forEach objects standaloneAreaBody st1) as [[[]|] st2]; [|reflexivity].
  simpl in H2. rewrite bind_unfold, (whenNoAreas_skipped _ _ H2).
  rewrite bind_unfold, (whenNoAreas_skipped _ _ H2). reflexivity.
Qed.

(** X7: whatever the text and the parser, [processBackupFile] leaves a
    record of areas that is not empty, and its structured pass starts from
    one: the alternative search for areas and the default area of that pass
    never run, the pass does what it would do without them. *)
Theorem areas_never_empty_after_parsing
    (xml_parse : string -> result jsval) (cfg : Config) (raw : string) (st : Store) :
  areasIsEmpty (areas (snd (processBackupFile xml_parse cfg raw st))) = false /\
  forall parsed,
    structuredPass cfg (removeLineBreaks raw) parsed (afterAreas (removeLineBreaks raw) st)
    = structuredPassWithoutFallbacks cfg (removeLineBreaks raw) parsed
        (afterAreas (removeLineBreaks raw) st).
Proof.
  assert (areasNonEmpty (afterAreas (removeLineBreaks raw) st)) as H1
    by apply extractAreasDirectly_nonEmpty.
  split; [|intros parsed; now apply structuredPass_without_fallbacks].
  unfold processBackupFile, tryCatch.
  rewrite bind_unfold. unfold modifyAreas at 1. fold (afterAreas (removeLineBreaks raw) st).
  set (st1 := afterAreas (removeLineBreaks raw) st) in *.
  destruct (objectsSection _) as [objectsXml|]; [|exact H1].
  destruct (xml_parse objectsXml) as [parsed|].
  - rewrite structuredPass_without_fallbacks by exact H1.
    assert (preserves areasNonEmpty
              (structuredPassWithoutFallbacks cfg (removeLineBreaks raw) parsed)) as Hp.
    { unfold structuredPassWithoutFallbacks. ne_step; [ne_step|].
      destruct (_ || _)%bool; [ne_step|].
      ne_step; [ne_step; apply nonEmpty_explicitAreaBody|].
      ne_step; [ne_step; apply nonEmpty_standaloneAreaBody|].
      ne_step. apply nonEmpty_deviceBody. }
    specialize (Hp st1 H1).
    destruct (structuredPassWithoutFallbacks _ _ _ _) as [[[]|] st2]; simpl in *;
      [exact Hp|].
    now apply (nonEmpty_direct cfg (removeLineBreaks raw) st2).
  - exact (nonEmpty_direct cfg (removeLineBreaks raw) st1 H1).
Qed.

(** ** The callbacks of discovery *)

Lemma prefix_app (p a b : string) :
  String.prefix p a = true -> String.prefix p (a +:+ b) = true.
Proof.
  revert a. induction p as [|x p IH]; intros a; [intros _; destruct (a +:+ b); reflexivity|].
  destruct a as [|y a]; [discriminate|].
  rewrite append_cons. simpl.
  destruct (ascii_dec x y); [apply IH|discriminate].
Qed.

Lemma includes_cons (y : ascii) (a sub : string) :
  includes (String y a) sub = (String.prefix sub (String y a) || includes a sub)%bool.
Proof. reflexivity. Qed.

Lemma includes_app (a b sub : string) :
  includes a sub = true -> includes (a +:+ b) sub = true.
Proof.
  induction a as [|y a IH]; intros H.
  - destruct sub; [|discriminate]. rewrite append_nil_l. destruct b; reflexivity.
  - rewrite append_cons, includes_cons. rewrite includes_cons in H.
    apply orb_prop in H as [H|H].
    + apply (prefix_app _ (String y a) b) in H. rewrite append_cons in H. now rewrite H.
    + rewrite (IH H). apply orb_true_r.
Qed.

Lemma onData_without_closing_tag xml_parse base64_decode cfg data s :
  includes (buffer s +:+ data) "</IBackup>" = false ->
  includes (buffer s +:+ data) "</ILogin>" = false ->
  onData xml_parse base64_decode cfg data s = setBuffer (buffer s +:+ data) s.
Proof. intros H1 H2. unfold onData. cbv zeta. simpl. now rewrite H1, H2. Qed.

Lemma feed_without_closing_tag xml_parse base64_decode cfg chunks :
  forall s,
    includes (buffer s +:+ joinChunks chunks) "</IBackup>" = false ->
    includes (buffer s +:+ joinChunks chunks) "</ILogin>" = false ->
    fold_left (step xml_parse base64_decode cfg) (map Data chunks) s
    = setBuffer (buffer s +:+ joinChunks chunks) s.
Proof.
  induction chunks as [|chunk chunks IH]; intros s H1 H2; simpl.
  - rewrite string_app_empty_r. now destruct s.
  - change (joinChunks (chunk :: chunks)) with (chunk +:+ joinChunks chunks) in H1, H2.
    rewrite <- string_app_assoc in H1, H2.
    rewrite onData_without_closing_tag.
    + rewrite IH; simpl; [|assumption|assumption]. now rewrite string_app_assoc.
    + destruct (includes (buffer s +:+ chunk) "</IBackup>") eqn:E; [|reflexivity].
      apply (includes_app _ (joinChunks chunks)) in E. congruence.
    + destruct (includes (buffer s +:+ chunk) "</ILogin>") eqn:E; [|reflexivity].
      apply (includes_app _ (joinChunks chunks)) in E. congruence.
Qed.

(** X8: the discovery channel reassembles a response cut into chunks: as
    long as the text received so far holds neither closing tag, feeding
    chunks one by one and then one more chunk leaves the channel in the
    state that feeding their concatenation in one chunk leaves it in. *)
Theorem discovery_chunks_reassemble
    (xml_parse : string -> result jsval) (base64_decode : jsval -> result string)
    (cfg : Config) (s : State) (chunks : list string) (last : string) :
  includes (buffer s +:+ joinChunks chunks) "</IBackup>" = false ->
  includes (buffer s +:+ joinChunks chunks) "</ILogin>" = false ->
  fold_left (step xml_parse base64_decode cfg) (map Data (chunks ++ [last])) s
  = onData xml_parse base64_decode cfg (joinChunks chunks +:+ last) s.
Proof.
  intros H1 H2. rewrite map_app, fold_left_app. simpl.
  rewrite feed_without_closing_tag by assumption.
  unfold onData. cbv zeta. simpl. now rewrite string_app_assoc.
Qed.

Lemma discovery_chunks_reassemble_witness :
  fold_left (step (parserGiving sampleTree) (decoderGiving sampleBackup) plainConfig)
            (map Data (["<IBackup><Get"; "File><return>"] ++ ["</return></GetFile></IBackup>"]))
            initial
  = onData (parserGiving sampleTree) (decoderGiving sampleBackup) plainConfig
      (joinChunks ["<IBackup><Get"; "File><return>"] +:+ "</return></GetFile></IBackup>")
      initial.
Proof.
  apply discovery_chunks_reassemble; reflexivity.
Defined.

Lemma step_keeps_disarmed xml_parse base64_decode cfg s c :
  timeoutArmed s = false -> timeoutArmed (step xml_parse base64_decode cfg s c) = false.
Proof.
  intros H. destruct c as [| |chunk|message|]; simpl; try reflexivity.
  - unfold onTimeout. now rewrite H.
  - unfold onConnect. destruct (_ && _)%bool; reflexivity.
  - unfold onData. cbv zeta.
    destruct (_ || _)%bool; [|exact H].
    destruct (rbind _ _) as [[parsed login]|]; [|exact H].
    destruct (truthy _); [exact H|].
    destruct (truthy _); [|exact H].
    destruct (base64_decode _); [|exact H].
    destruct (processBackupFile _ _ _ _) as [[[]|] st]; exact H.
Qed.

Lemma step_disarms xml_parse base64_decode cfg s c :
  (forall chunk, c <> Data chunk) ->
  timeoutArmed (step xml_parse base64_decode cfg s c) = false.
Proof.
  intros Hc. destruct c as [| |chunk|message|]; simpl; try reflexivity.
  - unfold onTimeout. destruct (timeoutArmed s) eqn:E; [reflexivity|exact E].
  - unfold onConnect. destruct (_ && _)%bool; reflexivity.
  - now destruct (Hc chunk).
Qed.

Lemma fold_keeps_disarmed xml_parse base64_decode cfg trace :
  forall s, timeoutArmed s = false ->
            timeoutArmed (fold_left (step xml_parse base64_decode cfg) trace s) = false.
Proof.
  induction trace as [|c trace IH]; intros s H; simpl; [exact H|].
  apply IH. now apply step_keeps_disarmed.
Qed.

(** X9: the callback of the ten-second timer acts at most once and only
    while nothing but data has been delivered: after a connection, an
    error, a close or an earlier firing of the timer, it changes nothing,
    so it emits no event and does not destroy the socket. *)
Theorem timeout_is_cancelled
    (xml_parse : string -> result jsval) (base64_decode : jsval -> result string)
    (cfg : Config) (before after : list Callback) (c : Callback) :
  (forall chunk, c <> Data chunk) ->
  run xml_parse base64_decode cfg (before ++ c :: after ++ [Timeout])
  = run xml_parse base64_decode cfg (before ++ c :: after).
Proof.
  intros Hc. unfold run.
  replace (before ++ c :: after ++ [Timeout])%list
    with ((before ++ c :: after) ++ [Timeout])%list
    by (now rewrite <- app_assoc).
  rewrite fold_left_app. simpl. unfold onTimeout.
  rewrite fold_left_app. simpl.
  now rewrite (fold_keeps_disarmed _ _ _ after _ (step_disarms _ _ _ _ c Hc)).
Qed.

Lemma timeout_is_cancelled_witness :
  run parserRejecting (decoderGiving sampleBackup) plainConfig
      ([] ++ Connect :: [Data "<IBackup>"] ++ [Timeout])
  = run parserRejecting (decoderGiving sampleBackup) plainConfig
      ([] ++ Connect :: [Data "<IBackup>"]).
Proof.
  apply timeout_is_cancelled. discriminate.
Defined.

(** ** Status lines *)

Import Accessories.

Lemma split_lacks (sep : ascii) (s : string) :
  Platform.lacks sep s = true -> split sep s = [s].
Proof.
  induction s as [|x s IH]; simpl; [reflexivity|].
  intros H. apply andb_prop in H as [Hx Hs]. apply negb_true_iff in Hx.
  rewrite Hx, (IH Hs). reflexivity.
Qed.

Lemma lacks_app (c : ascii) (a b : string) :
  Platform.lacks c (a +:+ b) = (Platform.lacks c a && Platform.lacks c b)%bool.
Proof.
  induction a as [|x a IH]; [reflexivity|].
  rewrite append_cons. simpl. rewrite IH. now rewrite andb_assoc.
Qed.

Lemma joinTokens_cons (t u : string) (rest : list string) :
  Platform.joinTokens (t :: u :: rest) = t +:+ String SP (Platform.joinTokens (u :: rest)).
Proof. reflexivity. Qed.

Lemma lacks_LF_joinTokens (tokens : list string) :
  forallb Platform.isToken tokens = true ->
  Platform.lacks LF (Platform.joinTokens tokens) = true.
Proof.
  induction tokens as [|t [|u rest] IH]; intros H; [reflexivity| |].
  - simpl in H. rewrite andb_true_r in H. unfold Platform.isToken in H.
    now apply andb_prop in H as [_ H].
  - rewrite joinTokens_cons, lacks_app.
    change (forallb Platform.isToken (t :: u :: rest))
      with (Platform.isToken t && forallb Platform.isToken (u :: rest))%bool in H.
    apply andb_prop in H as [Ht Hr]. unfold Platform.isToken in Ht.
    apply andb_prop in Ht as [_ Ht]. rewrite Ht. simpl. now apply IH.
Qed.

Lemma split_SP_joinTokens (tokens : list string) :
  tokens <> [] -> forallb Platform.isToken tokens = true ->
  split SP (Platform.joinTokens tokens) = tokens.
Proof.
  induction tokens as [|t [|u rest] IH]; intros Hne H; [contradiction| |].
  - simpl in H. rewrite andb_true_r in H. unfold Platform.isToken in H.
    apply andb_prop in H as [H _]. now apply split_lacks.
  - rewrite joinTokens_cons, split_app_sep.
    change (forallb Platform.isToken (t :: u :: rest))
      with (Platform.isToken t && forallb Platform.isToken (u :: rest))%bool in H.
    apply andb_prop in H as [Ht Hr]. unfold Platform.isToken in Ht.
    apply andb_prop in Ht as [Ht _]. rewrite (split_lacks _ _ Ht).
    rewrite IH; [reflexivity|discriminate|exact Hr].
Qed.

(** X10: a line made of tokens with single spaces between them, none of
    the tokens holding a space or a newline, is decoded to exactly those
    tokens, and so is dispatched as one line. *)
Theorem status_line_decodes_to_its_tokens (tokens : list string) :
  tokens <> [] -> forallb Platform.isToken tokens = true ->
  decodeLines (Platform.joinTokens tokens) = [tokens] /\
  handleCommandData (Platform.joinTokens tokens)
  = match processCommandResponse tokens with
    | Ok evs => (evs, Ok tt)
    | Throw => ([], Throw)
    end.
Proof.
  intros Hne H.
  assert (decodeLines (Platform.joinTokens tokens) = [tokens]) as E.
  { unfold decodeLines. rewrite (split_lacks LF) by now apply lacks_LF_joinTokens.
    simpl. now rewrite split_SP_joinTokens. }
  split; [exact E|]. unfold handleCommandData. rewrite E.
  destruct tokens as [|t rest]; [contradiction|].
  cbn [dispatchLines length Nat.eqb].
  destruct (processCommandResponse (t :: rest)); [now rewrite app_nil_r|reflexivity].
Qed.

Lemma status_line_decodes_to_its_tokens_witness :
  decodeLines "R:GETLOAD 12 75" = [["R:GETLOAD"; "12"; "75"]] /\
  handleCommandData "R:GETLOAD 12 75" = ([loadStatusChange (Some "12") (int 75)], Ok tt).
Proof.
  apply (status_line_decodes_to_its_tokens ["R:GETLOAD"; "12"; "75"]);
    [discriminate|reflexivity].
Defined.

Lemma handle_status_line (tokens : list string) (evs : list Event) :
  tokens <> [] -> forallb Platform.isToken tokens = true ->
  processCommandResponse tokens = Ok evs ->
  handleCommandData (Platform.joinTokens tokens) = (evs, Ok tt).
Proof.
  intros Hne H E.
  assert (decodeLines (Platform.joinTokens tokens) = [tokens]) as D.
  { unfold decodeLines. rewrite (split_lacks LF) by now apply lacks_LF_joinTokens.
    simpl. now rewrite split_SP_joinTokens. }
  unfold handleCommandData. rewrite D.
  destruct tokens as [|t rest]; [contradiction|].
  cbn [dispatchLines length Nat.eqb].
  rewrite E. now rewrite app_nil_r.
Qed.

Lemma levels_read_back (z : Z) : 0 <= z <= 100 -> Platform.levelReadsBack z = true.
Proof.
  intros Hz.
  assert (forallb Platform.levelReadsBack (map Z.of_nat (seq 0 101)) = true) as H
    by (vm_compute; reflexivity).
  rewrite forallb_forall in H. apply H.
  apply in_map_iff. exists (Z.to_nat z). split; [lia|]. apply in_seq. lia.
Qed.

Lemma levelReadsBack_spec (z : Z) :
  Platform.levelReadsBack z = true ->
  Platform.isToken (number_to_string (int z)) = true /\
  parseInt (number_to_string (int z)) = int z.
Proof.
  unfold Platform.levelReadsBack. intros H. apply andb_prop in H as [H1 H2].
  split; [exact H1|].
  destruct (parseInt _) as [| |m e]; try discriminate.
  apply andb_prop in H2 as [Hm He]. apply Z.eqb_eq in Hm, He. now subst.
Qed.

(** ** The load accessory (accessories/load.ts) *)

Lemma num_gt_not_eq (a b : jsnum) : num_gt a b = true -> num_eq a b = false.
Proof.
  unfold num_gt, num_eq. destruct (num_compare a b) as [[]|]; congruence.
Qed.

Lemma loadStep_onMeansLit (vid : string) (st : LoadState) (op : LoadOp) :
  Platform.onMeansLit st -> Platform.onMeansLit (fst (loadStep vid st op)).
Proof.
  unfold Platform.onMeansLit. intros Hst.
  destruct op as [value|value|value]; simpl.
  - destruct value; [|discriminate]. intros _. simpl.
    destruct (num_eq (brightness st) (int 0)) eqn:E; [reflexivity|exact E].
  - apply num_gt_not_eq.
  - apply num_gt_not_eq.
Qed.

Lemma loadRun_onMeansLit (vid : string) (ops : list LoadOp) (st : LoadState) :
  Platform.onMeansLit st -> Platform.onMeansLit (fst (loadRun vid st ops)).
Proof.
  revert st. induction ops as [|op rest IH]; intros st Hst; [exact Hst|].
  simpl. pose proof (loadStep_onMeansLit vid st op Hst) as H1.
  destruct (loadStep vid st op) as [st1 w1]. specialize (IH st1 H1).
  destruct (loadRun vid st1 rest) as [st2 w2]. exact IH.
Qed.

(** X11: whatever HomeKit sets (On, Brightness, RotationSpeed) and
    whatever levels the controller reports, in any order, a load accessory
    that is on never has brightness 0; so switching it on never asks the
    controller for level 0. *)
Theorem load_that_is_on_has_a_level (vid : string) (ops : list LoadOp) :
  let st := fst (loadRun vid loadInitial ops) in
  Platform.onMeansLit st /\
  exists level,
    snd (loadSetOn vid true st) = setLoadLevel vid level (int 1) /\
    num_eq level (int 0) = false.
Proof.
  intros st.
  assert (Platform.onMeansLit st) as Hst.
  { apply loadRun_onMeansLit. intros H. discriminate H. }
  split; [exact Hst|].
  unfold loadSetOn. cbn [snd andb].
  destruct (num_eq (brightness st) (int 0)) eqn:E.
  - exists (int 100). split; reflexivity.
  - exists (brightness st). split; [reflexivity|exact E].
Qed.

(** X12: switching a load off and on again restores the level it had,
    unless the controller reported level 0 in between: then the level is
    forgotten and switching on asks for 100. *)
Theorem load_off_on_restores_level (vid : string) (st : LoadState) :
  num_eq (brightness st) (int 0) = false ->
  loadRun vid st [SetOn false; SetOn true]
  = ({| brightness := brightness st; power := true |},
     (setLoadLevel vid (int 0) (int 1) ++ setLoadLevel vid (brightness st) (int 1))%list) /\
  loadRun vid st [SetOn false; UpdateState (int 0); SetOn true]
  = ({| brightness := int 100; power := true |},
     (setLoadLevel vid (int 0) (int 1) ++ setLoadLevel vid (int 100) (int 1))%list).
Proof.
  intros E. split.
  - cbn [loadRun loadStep loadSetOn andb brightness power]. rewrite E. reflexivity.
  - reflexivity.
Qed.

Lemma load_off_on_restores_level_witness :
  loadRun "12" {| brightness := int 40; power := true |} [SetOn false; SetOn true]
  = ({| brightness := int 40; power := true |},
     (setLoadLevel "12" (int 0) (int 1) ++ setLoadLevel "12" (int 40) (int 1))%list) /\
  loadRun "12" {| brightness := int 40; power := true |}
    [SetOn false; UpdateState (int 0); SetOn true]
  = ({| brightness := int 100; power := true |},
     (setLoadLevel "12" (int 0) (int 1) ++ setLoadLevel "12" (int 100) (int 1))%list).
Proof.
  apply (load_off_on_restores_level "12" {| brightness := int 40; power := true |}).
  reflexivity.
Defined.

Lemma status_events (verb vid level : string) (evs : list Event) :
  Platform.isToken verb = true -> Platform.isToken vid = true ->
  Platform.isToken level = true ->
  processCommandResponse [verb; vid; level] = Ok evs ->
  fst (handleCommandData (Platform.joinTokens [verb; vid; level])) = evs.
Proof.
  intros Hv Hi Hl E.
  rewrite (handle_status_line [verb; vid; level] evs); [reflexivity|discriminate| |exact E].
  cbn [forallb]. now rewrite Hv, Hi, Hl.
Qed.

(** X13: a level from 0 to 100 set on a dimmer is written as a ramp to
    that level, and the status line with which the controller reports
    that level of that load leaves the accessory in the state the setting
    gave it. *)
Theorem dimmer_level_round_trip
    (vid : string) (z : Z) (st : LoadState) (deviceMap : gmap string Platform.Accessory) :
  Platform.isToken vid = true -> 0 <= z <= 100 ->
  deviceMap !! vid = Some (Platform.LoadAccessory st) ->
  snd (loadSetBrightness vid (int z) st)
  = ["INVOKE " +:+ vid +:+ " Load.Ramp 6 1 " +:+ number_to_string (int z) +:+ nl] /\
  Platform.deliver
    (fst (handleCommandData
            (Platform.joinTokens ["S:LOAD"; vid; number_to_string (int z)]))) deviceMap
  = Ok (<[vid := Platform.LoadAccessory (fst (loadSetBrightness vid (int z) st))]> deviceMap).
Proof.
  intros Hvid Hz Hd. split; [reflexivity|].
  destruct (levelReadsBack_spec z (levels_read_back z Hz)) as [Htok Hparse].
  rewrite (status_events "S:LOAD" vid (number_to_string (int z))
             [loadStatusChange (Some vid) (int z)]); try assumption; try reflexivity.
  - cbn [Platform.deliver Platform.onEvent]. rewrite Hd. reflexivity.
  - cbn [processCommandResponse verb_in existsb String.eqb Ascii.eqb Bool.eqb orb].
    cbn [lookup list_lookup ToString_opt]. now rewrite Hparse.
Qed.

Lemma dimmer_level_round_trip_witness :
  snd (loadSetBrightness "12" (int 75) loadInitial)
  = ["INVOKE " +:+ "12" +:+ " Load.Ramp 6 1 " +:+ number_to_string (int 75) +:+ nl] /\
  Platform.deliver
    (fst (handleCommandData
            (Platform.joinTokens ["S:LOAD"; "12"; number_to_string (int 75)])))
    (<["12" := Platform.LoadAccessory loadInitial]> ∅)
  = Ok (<["12" := Platform.LoadAccessory (fst (loadSetBrightness "12" (int 75) loadInitial))]>
          (<["12" := Platform.LoadAccessory loadInitial]> ∅)).
Proof.
  apply (dimmer_level_round_trip "12" 75 loadInitial);
    [reflexivity | lia | apply lookup_insert_eq].
Defined.

(** ** The switch accessory (accessories/switch.ts) *)

(** X14: switching a relay on or off is written as a ramp to level 100 or
    0, and the status line with which the controller reports that level
    of that load leaves the switch in the state the setting gave it. *)
Theorem switch_round_trip
    (vid : string) (value : bool) (st : SwitchState)
    (deviceMap : gmap string Platform.Accessory) :
  Platform.isToken vid = true ->
  deviceMap !! vid = Some (Platform.SwitchAccessory st) ->
  let level := if value then "100" else "0" in
  snd (switchSetOn vid value st) = ["INVOKE " +:+ vid +:+ " Load.Ramp 6 1 " +:+ level +:+ nl] /\
  Platform.deliver
    (fst (handleCommandData (Platform.joinTokens ["S:LOAD"; vid; level]))) deviceMap
  = Ok (<[vid := Platform.SwitchAccessory (fst (switchSetOn vid value st))]> deviceMap).
Proof.
  intros Hvid Hd level. split; [destruct value; reflexivity|].
  rewrite (status_events "S:LOAD" vid level
             [loadStatusChange (Some vid) (if value then int 100 else int 0)]);
    try assumption; try (destruct value; reflexivity).
  cbn [Platform.deliver Platform.onEvent]. rewrite Hd. destruct value; reflexivity.
Qed.

Lemma switch_round_trip_witness :
  snd (switchSetOn "30" true switchInitial)
  = ["INVOKE " +:+ "30" +:+ " Load.Ramp 6 1 " +:+ "100" +:+ nl] /\
  Platform.deliver
    (fst (handleCommandData (Platform.joinTokens ["S:LOAD"; "30"; "100"])))
    (<["30" := Platform.SwitchAccessory switchInitial]> ∅)
  = Ok (<["30" := Platform.SwitchAccessory (fst (switchSetOn "30" true switchInitial))]>
          (<["30" := Platform.SwitchAccessory switchInitial]> ∅)).
Proof.
  apply (switch_round_trip "30" true switchInitial);
    [reflexivity | apply lookup_insert_eq].
Defined.

(** ** The thermostat accessory (accessories/thermostat.ts) *)

Lemma thermostatStep_thresholds (vid : string) (st : ThermostatState) (op : ThermostatOp) :
  heatingThreshold (fst (thermostatStep vid st op)) = heatingThreshold st /\
  coolingThreshold (fst (thermostatStep vid st op)) = coolingThreshold st.
Proof. destruct op; split; reflexivity. Qed.

Lemma thermostatRun_thresholds (vid : string) (ops : list ThermostatOp) (st : ThermostatState) :
  heatingThreshold (fst (thermostatRun vid st ops)) = heatingThreshold st /\
  coolingThreshold (fst (thermostatRun vid st ops)) = coolingThreshold st.
Proof.
  revert st. induction ops as [|op rest IH]; intros st; [split; reflexivity|].
  simpl. pose proof (thermostatStep_thresholds vid st op) as [H1 H2].
  destruct (thermostatStep vid st op) as [st1 w1]. specialize (IH st1) as [I1 I2].
  destruct (thermostatRun vid st1 rest) as [st2 w2]. simpl in *. split; congruence.
Qed.

Lemma num_eq_three (mode : jsnum) :
  num_eq mode (int 3) = true ->
  num_eq mode (int 1) = false /\ num_eq mode (int 2) = false.
Proof.
  unfold num_eq, int. destruct mode as [|n|m e]; simpl; try discriminate.
  - destruct n; discriminate.
  - assert (0 < 10 ^ (0 - Z.min e 0)) as Hp by (apply Z.pow_pos_nonneg; lia).
    destruct (Z.compare_spec (m * 10 ^ (e - Z.min e 0)) (3 * 10 ^ (0 - Z.min e 0)))
      as [E|E|E]; try discriminate.
    intros _. rewrite E. split.
    + destruct (Z.compare_spec (3 * 10 ^ (0 - Z.min e 0)) (1 * 10 ^ (0 - Z.min e 0)));
        [lia|reflexivity|reflexivity].
    + destruct (Z.compare_spec (3 * 10 ^ (0 - Z.min e 0)) (2 * 10 ^ (0 - Z.min e 0)));
        [lia|reflexivity|reflexivity].
Qed.

(** X15: the two thresholds of a thermostat accessory stay at their
    initial 0 whatever is set and reported, so in Auto mode a target
    temperature above 0 is written as the cool setpoint, one below 0 as
    the heat setpoint, and 0 or NaN writes nothing. *)
Theorem thermostat_auto_mode_setpoint
    (vid : string) (ops : list ThermostatOp) (value : jsnum) :
  let st := fst (thermostatRun vid thermostatInitial ops) in
  num_eq (targetHeatingCoolingState st) (int 3) = true ->
  heatingThreshold st = int 0 /\ coolingThreshold st = int 0 /\
  snd (thermostatSetTargetTemperature vid value st)
  = if num_gt value (int 0) then [thermtemp vid "COOL" value]
    else if num_lt value (int 0) then [thermtemp vid "HEAT" value]
    else [].
Proof.
  intros st Hauto.
  destruct (thermostatRun_thresholds vid ops thermostatInitial) as [Hh Hc].
  fold st in Hh, Hc. simpl in Hh, Hc.
  split; [exact Hh|]. split; [exact Hc|].
  unfold thermostatSetTargetTemperature, setThermostatTemperature. cbn [snd].
  destruct (num_eq_three _ Hauto) as [E1 E2].
  rewrite E1, E2, Hauto, Hh, Hc. reflexivity.
Qed.

Lemma thermostat_auto_mode_setpoint_witness :
  heatingThreshold
    (fst (thermostatRun "7" thermostatInitial [SetTargetState (int 3); UpdateTemperature (int 21)]))
  = int 0 /\
  coolingThreshold
    (fst (thermostatRun "7" thermostatInitial [SetTargetState (int 3); UpdateTemperature (int 21)]))
  = int 0 /\
  snd (thermostatSetTargetTemperature "7" (int 22)
         (fst (thermostatRun "7" thermostatInitial
                 [SetTargetState (int 3); UpdateTemperature (int 21)])))
  = [thermtemp "7" "COOL" (int 22)].
Proof.
  apply (thermostat_auto_mode_setpoint "7"
           [SetTargetState (int 3); UpdateTemperature (int 21)] (int 22)).
  reflexivity.
Defined.

(** X16: each of the four modes 0 (Off), 1 (Heat), 2 (Cool), 3 (Auto) set
    on a thermostat is written as a word that the decoding of the status
    line of that thermostat reads back as the same mode. *)
Theorem thermostat_mode_round_trip
    (vid : string) (m : Z) (st : ThermostatState)
    (deviceMap : gmap string Platform.Accessory) :
  Platform.isToken vid = true -> 0 <= m <= 3 ->
  deviceMap !! vid = Some (Platform.ThermostatAccessory st) ->
  snd (thermostatSetTargetState vid (int m) st)
  = ["THERMOP " +:+ vid +:+ " " +:+ Platform.modeWord (int m) +:+ nl] /\
  decodeMode (Platform.modeWord (int m)) = m /\
  Platform.deliver
    (fst (handleCommandData
            (Platform.joinTokens ["S:THERMOP"; vid; Platform.modeWord (int m)]))) deviceMap
  = Ok (<[vid := Platform.ThermostatAccessory
                   (thermostatUpdateMode (int m) (fst (thermostatSetTargetState vid (int m) st)))]>
          deviceMap).
Proof.
  intros Hvid Hm Hd. split; [reflexivity|].
  assert (m = 0 \/ m = 1 \/ m = 2 \/ m = 3) as [-> | [-> | [-> | ->]]] by lia.
  all: split; [reflexivity|].
  all: match goal with
       | |- context [Platform.modeWord (int ?k)] =>
           let w := eval vm_compute in (Platform.modeWord (int k)) in
           change (Platform.modeWord (int k)) with w;
           rewrite (status_events "S:THERMOP" vid w
                      [thermostatIndoorModeChange (Some vid) k (int (-1))]);
           try assumption; try reflexivity
       end.
  all: cbn [Platform.deliver Platform.onEvent]; rewrite Hd; reflexivity.
Qed.

Lemma thermostat_mode_round_trip_witness :
  snd (thermostatSetTargetState "7" (int 3) thermostatInitial)
  = ["THERMOP " +:+ "7" +:+ " " +:+ Platform.modeWord (int 3) +:+ nl] /\
  decodeMode (Platform.modeWord (int 3)) = 3 /\
  Platform.deliver
    (fst (handleCommandData
            (Platform.joinTokens ["S:THERMOP"; "7"; Platform.modeWord (int 3)])))
    (<["7" := Platform.ThermostatAccessory thermostatInitial]> ∅)
  = Ok (<["7" := Platform.ThermostatAccessory
                   (thermostatUpdateMode (int 3)
                      (fst (thermostatSetTargetState "7" (int 3) thermostatInitial)))]>
          (<["7" := Platform.ThermostatAccessory thermostatInitial]> ∅)).
Proof.
  apply (thermostat_mode_round_trip "7" 3 thermostatInitial);
    [reflexivity | lia | apply lookup_insert_eq].
Defined.

(** ** The blind accessory (accessories/blind.ts) *)

Lemma blindRun_targets_keep_moving (vid : string) (ops : list BlindOp) (st : BlindState) :
  Forall Platform.isSetTarget ops -> positionState st <> STOPPED ->
  positionState (fst (blindRun vid st ops)) <> STOPPED /\
  currentPosition (fst (blindRun vid st ops)) = currentPosition st.
Proof.
  revert st. induction ops as [|op rest IH]; intros st Hops Hst; [split; [exact Hst|reflexivity]|].
  inversion Hops as [|? ? Hop Hrest]; subst.
  destruct op as [p|p]; [|contradiction]. simpl.
  assert (positionState (fst (blindSetTarget vid p st)) <> STOPPED) as H1.
  { simpl. destruct (num_gt p (currentPosition st)); [discriminate|].
    destruct (num_lt p (currentPosition st)); [discriminate|exact Hst]. }
  destruct (IH (fst (blindSetTarget vid p st)) Hrest H1) as [I1 I2].
  simpl in I1, I2.
  destruct (blindRun vid _ rest) as [st2 w2]. simpl in *. split; assumption.
Qed.

(** X17: once a target other than the current position is set on a blind,
    the accessory shows it moving, and no target set afterwards, not even
    one equal to the current position, shows it stopped or changes the
    current position: only a position reported by the controller does. *)
Theorem blind_moves_until_position_reported
    (vid : string) (st : BlindState) (p : jsnum) (ops : list BlindOp) :
  (num_gt p (currentPosition st) || num_lt p (currentPosition st))%bool = true ->
  Forall Platform.isSetTarget ops ->
  let st' := fst (blindRun vid st (SetTarget p :: ops)) in
  positionState st' <> STOPPED /\ currentPosition st' = currentPosition st /\
  forall q, blindUpdatePosition q st'
            = {| currentPosition := q; targetPosition := q; positionState := STOPPED |}.
Proof.
  intros Hp Hops st'.
  assert (positionState (fst (blindSetTarget vid p st)) <> STOPPED) as H1.
  { simpl. destruct (num_gt p (currentPosition st)); [discriminate|].
    destruct (num_lt p (currentPosition st)); [discriminate|discriminate Hp]. }
  destruct (blindRun_targets_keep_moving vid ops _ Hops H1) as [I1 I2].
  subst st'. simpl. simpl in I1, I2.
  destruct (blindRun vid _ ops) as [st2 w2]. simpl in *.
  split; [exact I1|]. split; [exact I2|]. reflexivity.
Qed.

Lemma blind_moves_until_position_reported_witness :
  positionState (fst (blindRun "40" blindInitial [SetTarget (int 20); SetTarget (int 100)]))
  <> STOPPED /\
  currentPosition (fst (blindRun "40" blindInitial [SetTarget (int 20); SetTarget (int 100)]))
  = currentPosition blindInitial /\
  forall q,
    blindUpdatePosition q
      (fst (blindRun "40" blindInitial [SetTarget (int 20); SetTarget (int 100)]))
    = {| currentPosition := q; targetPosition := q; positionState := STOPPED |}.
Proof.
  apply (blind_moves_until_position_reported "40" blindInitial (int 20) [SetTarget (int 100)]).
  - reflexivity.
  - constructor; [exact I|constructor].
Defined.

(** ** The accessory of a device (platform.ts) *)

Lemma getDeviceName_of_strings (d : VantageDevice) (name area : string) :
  Name d = JStr name -> Area d = JStr area ->
  exists text, Platform.getDeviceName d = Ok text.
Proof.
  intros Hn Ha. unfold Platform.getDeviceName, js_or. rewrite Hn, Ha.
  destruct (truthy (JStr name)); destruct (truthy (JStr area)); cbn [rbind ToString].
  all: try destruct (includes _ area); eexists; reflexivity.
Qed.

Lemma relay_entries_are_dead (lt : string) :
  includes lt "Relay" = false ->
  existsb (isString (JStr lt)) Platform.nonDimmableTypes
  = existsb (String.eqb lt) Platform.plainNonDimmableTypes.
Proof.
  intros Hr. cbn [existsb isString Platform.nonDimmableTypes Platform.plainNonDimmableTypes].
  destruct (String.eqb_spec lt "Low Voltage Relay") as [->|_];
    [vm_compute in Hr; discriminate|].
  destruct (String.eqb_spec lt "High Voltage Relay") as [->|_];
    [vm_compute in Hr; discriminate|].
  reflexivity.
Qed.

(** X18: a device record of one of the five valid types whose name, area
    and load type are strings always gets a handler, never the warning of
    an unknown type: a Thermostat the thermostat, the three blind types
    the blind, a Load whose load type contains Relay the switch, and any
    other Load the load accessory, a dimmer unless its load type is one of
    the three non-Dim types or Motor (the two Relay entries of the
    non-dimmable list are never reached). *)
Theorem valid_device_gets_its_handler (d : VantageDevice) (name area lt : string) :
  In (ObjectType d) validTypes ->
  Name d = JStr name -> Area d = JStr area -> LoadType d = JStr lt ->
  Platform.setupAccessoryHandler d = Ok (Some (Platform.handlerFor (ObjectType d) lt)).
Proof.
  intros Ht Hn Ha Hl.
  destruct (getDeviceName_of_strings d name area Hn Ha) as [text Hname].
  unfold Platform.setupAccessoryHandler. rewrite Hname. cbn [rbind].
  unfold Platform.getDeviceType, Platform.isDimmable, Platform.isRelay,
    Platform.loadTypeIncludesRelay, Platform.handlerFor.
  rewrite Hl.
  destruct Ht as [E|[E|[E|[E|[E|[]]]]]]; rewrite <- E.
  - change (String.eqb "Load" "Thermostat") with false.
    change (includes "Load" "Blind") with false.
    change (String.eqb "Load" "Load") with true.
    cbn [rbind negb existsb orb].
    destruct (includes lt "Relay") eqn:Hr; cbn [rbind]; [reflexivity|].
    rewrite (relay_entries_are_dead lt Hr).
    destruct (existsb (String.eqb lt) Platform.plainNonDimmableTypes); reflexivity.
  - reflexivity.
  - reflexivity.
  - reflexivity.
  - reflexivity.
Qed.

Lemma valid_device_gets_its_handler_witness :
  Platform.setupAccessoryHandler (lamp "Kitchen")
  = Ok (Some (Platform.handlerFor (ObjectType (lamp "Kitchen")) "Dimmer")).
Proof.
  apply (valid_device_gets_its_handler (lamp "Kitchen") "Lamp" "Kitchen" "Dimmer").
  - left. reflexivity.
  - reflexivity.
  - reflexivity.
  - reflexivity.
Defined.

(** ** A status line without a VID *)

Lemma handle_first_line (verb rest : string) (evs : list Event) :
  Platform.isToken verb = true ->
  processCommandResponse [verb] = Ok evs ->
  exists evs', fst (handleCommandData (verb +:+ String LF rest)) = (evs ++ evs')%list.
Proof.
  intros Hv E. unfold Platform.isToken in Hv. apply andb_prop in Hv as [Hsp Hlf].
  unfold handleCommandData, decodeLines.
  rewrite split_app_sep, (split_lacks LF verb Hlf), map_app.
  cbn [map app]. rewrite (split_lacks SP verb Hsp).
  cbn [dispatchLines length Nat.eqb]. rewrite E.
  destruct (dispatchLines _) as [evs' r]. exists evs'. reflexivity.
Qed.

(** X19: a status line that is a load or blind verb alone, with no VID
    after it, makes the listener of the platform throw (it calls toString
    on the missing VID), whatever accessories there are and whatever
    follows the line in the chunk. *)
Theorem status_line_without_vid_throws_in_listener
    (verb rest : string) (deviceMap : gmap string Platform.Accessory) :
  verb_in verb ["S:BLIND"; "R:GETBLIND"; "S:LOAD"; "R:GETLOAD"] = true ->
  Platform.deliver (fst (handleCommandData (verb +:+ nl +:+ rest))) deviceMap = Throw.
Proof.
  intros Hv. unfold verb_in in Hv. cbn [existsb] in Hv.
  change (nl +:+ rest) with (String LF rest).
  repeat (apply orb_prop in Hv as [Hv|Hv]); try discriminate Hv;
    apply String.eqb_eq in Hv; subst verb.
  - destruct (handle_first_line "S:BLIND" rest [blindStatusChange None NaN]
                eq_refl eq_refl) as [evs' ->]; reflexivity.
  - destruct (handle_first_line "R:GETBLIND" rest [blindStatusChange None NaN]
                eq_refl eq_refl) as [evs' ->]; reflexivity.
  - destruct (handle_first_line "S:LOAD" rest [loadStatusChange None NaN]
                eq_refl eq_refl) as [evs' ->]; reflexivity.
  - destruct (handle_first_line "R:GETLOAD" rest [loadStatusChange None NaN]
                eq_refl eq_refl) as [evs' ->]; reflexivity.
Qed.

Lemma status_line_without_vid_throws_in_listener_witness :
  Platform.deliver (fst (handleCommandData ("S:LOAD" +:+ nl +:+ "S:LOAD 12 75")))
    (<["12" := Platform.LoadAccessory loadInitial]> ∅) = Throw.
Proof.
  apply (status_line_without_vid_throws_in_listener "S:LOAD" "S:LOAD 12 75").
  reflexivity.
Defined.
